(** * PDF Extractor Tool: the file-orchestration pipeline of [Main8_Copy_Right.py]

    A shallow embedding of the pipeline of [PDFExtractorApp]
    (extract hyperlinks, reconcile against the central folder, assign
    document numbers, transform the PDFs, write the report) and the
    properties the specification states about it.

    Python values are modelled as follows.
    - [str] is [string]; a non-ASCII literal is its UTF-8 byte sequence.
    - a tuple [(link_text, url)] is a pair [string * string].
    - a [dict] keyed by strings is a [gmap string _]; [d.get(k, dflt)] is
      [default dflt (d !! k)] and [d[k]] raises [KeyError] on a missing key.
    - [int] is [nat] (document numbers and counters are never negative).
    - a value that may be [None] is an [option]; a function that may
      raise returns an [option], with [None] for the exception, or runs
      in the monad [M] of the file operations.
    - the library functions on paths and strings ([os.path],
      [urllib.parse.unquote], [str.strip]) are an interface ([Platform])
      with the POSIX flavour as its executable instance. *)

From Stdlib Require Import Ascii String DecimalString.
From stdpp Require Import gmap strings list fin_maps.

Open Scope string_scope.
Open Scope list_scope.

(** ** Strings *)

Module Str.

(** [s.endswith(suffix)] *)
Definition endswith (s suffix : string) : bool :=
  let n := String.length s in
  let k := String.length suffix in
  (k <=? n)%nat && String.eqb (String.substring (n - k) k s) suffix.

Definition lower_ascii (c : ascii) : ascii :=
  let n := nat_of_ascii c in
  if ((65 <=? n) && (n <=? 90))%nat then ascii_of_nat (n + 32) else c.

(** [s.lower()] on the ASCII letters.  Bytes of a multi-byte UTF-8
    character are at or above 128 and stay as they are; no such
    character lowers to one of [.], [p], [d], [f], so a test of the
    lowered string against an ASCII suffix is the one Python makes. *)
Fixpoint lower (s : string) : string :=
  match s with
  | EmptyString => EmptyString
  | String c r => String (lower_ascii c) (lower r)
  end.

Definition backslash : ascii := ascii_of_nat 92.

(** [s.replace(a, b)] for single characters *)
Fixpoint replace_char (a b : ascii) (s : string) : string :=
  match s with
  | EmptyString => EmptyString
  | String c r =>
      String (if Ascii.eqb c a then b else c) (replace_char a b r)
  end.

(** [needle in s] *)
Fixpoint contains (s needle : string) : bool :=
  String.prefix needle s ||
  match s with
  | EmptyString => false
  | String _ r => contains r needle
  end.

(** [str(n)] and [f"{n}"] for a non-negative [int] *)
Definition of_nat (n : nat) : string :=
  NilZero.string_of_uint (Nat.to_uint n).

(** [f"{n:03d}"]: decimal, padded on the left with zeros to width 3 *)
Definition format_03d (n : nat) : string :=
  let d := of_nat n in
  String.concat "" (replicate (3 - String.length d) "0") +:+ d.

End Str.

(** ** Paths *)

(** The library functions on paths and strings that the pipeline calls.
    The properties of the pipeline hold for every implementation of
    them. *)
Class Platform := {
  basename : string → string;            (* os.path.basename *)
  join : string → string → string;       (* os.path.join *)
  normpath : string → string;            (* os.path.normpath *)
  abspath : string → string;             (* os.path.abspath *)
  unquote : string → string;             (* urllib.parse.unquote *)
  strip : string → string;               (* str.strip *)
}.

Module Posix.

Definition is_sep (c : ascii) : bool := Ascii.eqb c "/"%char.

Fixpoint has_sep (p : string) : bool :=
  match p with
  | EmptyString => false
  | String c r => is_sep c || has_sep r
  end.

(** [posixpath.basename]: what follows the last [/] *)
Fixpoint posix_basename (p : string) : string :=
  match p with
  | EmptyString => EmptyString
  | String c r =>
      if has_sep r then posix_basename r
      else if is_sep c then r else p
  end.

(** [posixpath.join] of two components *)
Definition posix_join (a b : string) : string :=
  if String.prefix "/" b then b
  else if String.eqb a "" || Str.endswith a "/" then a +:+ b
  else a +:+ "/" +:+ b.

(** The instance used to run the pipeline on examples.  Its inputs are
    already decoded, stripped, normalized and absolute paths, which
    [unquote], [strip], [normpath] and [abspath] leave as they are. *)
Definition platform : Platform := {|
  basename := posix_basename;
  join := posix_join;
  normpath := id;
  abspath := id;
  unquote := id;
  strip := id;
|}.

End Posix.

(** ** Hyperlinks and document numbers *)

(** A hyperlink as [extract_hyperlinks] yields it: [(link_text, url)]. *)
Definition hyperlink : Type := string * string.

(** The distinct elements of a list in the order of their first
    occurrence: the reading of "first-encounter order". *)
Fixpoint first_occurrences (names : list string) : list string :=
  match names with
  | [] => []
  | n :: rest => n :: filter (λ x, x ≠ n) (first_occurrences rest)
  end.

Section Numbering.
Context `{Platform}.

(** State of the numbering loops: [(unique_filenames, doc_number_counter)]. *)
Definition numbering : Type := gmap string nat * nat.

(** [process_pdfs], the body of the loop that assigns document numbers:
<<
    filename = os.path.basename(pdf_filename)
    if filename not in unique_filenames:
        unique_filenames[filename] = doc_number_counter
        doc_number_counter += 1
>> *)
Definition process_pdfs_assign (st : numbering) (item : hyperlink) : numbering :=
  let '(unique_filenames, doc_number_counter) := st in
  let '(_, pdf_filename) := item in
  let filename := basename pdf_filename in
  match unique_filenames !! filename with
  | None => (<[filename := doc_number_counter]> unique_filenames,
             doc_number_counter + 1)
  | Some _ => (unique_filenames, doc_number_counter)
  end.

(** [process_pdfs]: [unique_filenames] after the first loop, started
    from the empty dict and the counter 1. *)
Definition process_pdfs_unique_filenames (existing_pdfs : list hyperlink)
  : gmap string nat :=
  (foldl process_pdfs_assign (∅, 1) existing_pdfs).1.

(** [save_links_to_xlsx], the body of its "first pass" loop:
<<
    filename = os.path.basename(url)
    if filename not in unique_filenames:
        unique_filenames[filename] = doc_number_counter
        doc_number_counter += 1
>> *)
Definition save_links_assign (st : numbering) (item : hyperlink) : numbering :=
  let '(unique_filenames, doc_number_counter) := st in
  let '(_, url) := item in
  let filename := basename url in
  match unique_filenames !! filename with
  | None => (<[filename := doc_number_counter]> unique_filenames,
             doc_number_counter + 1)
  | Some _ => (unique_filenames, doc_number_counter)
  end.

Definition save_links_unique_filenames (existing_pdfs : list hyperlink)
  : gmap string nat :=
  (foldl save_links_assign (∅, 1) existing_pdfs).1.

(** The basenames of a hyperlink sequence, in order. *)
Definition basenames (links : list hyperlink) : list string :=
  (λ item : hyperlink, basename item.2) <$> links.

End Numbering.

(** A loop whose body may raise: [None] stands for the exception. *)
Fixpoint fold_option {S A} (body : S → A → option S) (s : S) (l : list A)
  : option S :=
  match l with
  | [] => Some s
  | x :: rest => s' ← body s x; fold_option body s' rest
  end.

(** ** Link extraction *)

(** A [w:hyperlink] element, as far as [extract_hyperlinks] reads it. *)
Record hyperlink_element := {
  (* t.text for t in hyperlink.xpath(".//w:r/w:t"); the text of an
     empty <w:t/> is None *)
  run_texts : list (option string);
  (* hyperlink.get("{...relationships}id") *)
  r_id : option string;
}.

(** A parsed document: per paragraph of [doc.paragraphs] its hyperlink
    elements in document order, and the relationship table
    [doc.part.rels] from relationship id to [target_ref]. *)
Record document := {
  paragraphs : list (list hyperlink_element);
  rels : gmap string string;
}.

(** Python's [a or b] on strings. *)
Definition str_or (a b : string) : string :=
  if String.eqb a "" then b else a.

(** [sep.join(items)]: raises [TypeError] when an item is [None]. *)
Fixpoint str_join (sep : string) (items : list (option string))
  : option string :=
  match items with
  | [] => Some ""
  | [item] => item
  | item :: rest =>
      first ← item; others ← str_join sep rest;
      Some (first +:+ sep +:+ others)
  end.

Section LinkExtraction.
Context `{Platform}.

(** The body of the inner loop of [extract_hyperlinks]; [None] when the
    join of the run texts raises. *)
Definition extract_hyperlink (doc : document)
    (hyperlinks : list hyperlink) (hl : hyperlink_element)
  : option (list hyperlink) :=
  joined ← str_join "" (run_texts hl);
  let link_text := str_or joined "Unnamed Link" in
  match r_id hl with
  | Some r_id =>
      if negb (String.eqb r_id "") then
        match rels doc !! r_id with
        | Some target_ref =>
            let url := normpath (unquote (strip target_ref)) in
            if Str.endswith (Str.lower url) ".pdf"
            then Some (hyperlinks ++ [(link_text, url)])
            else Some hyperlinks
        | None => Some hyperlinks
        end
      else Some hyperlinks
  | None => Some hyperlinks
  end.

(** [extract_hyperlinks]: the list it returns, or [None] when it raises. *)
Definition extract_hyperlinks (doc : document) : option (list hyperlink) :=
  fold_option
    (λ hyperlinks para, fold_option (extract_hyperlink doc) hyperlinks para)
    [] (paragraphs doc).

(** Every run text of the hyperlink element is a string. *)
Definition has_texts (hl : hyperlink_element) : Prop :=
  None ∉ run_texts hl.

(** The specification's reading, to compare with the loop above. *)

(** Display text: the concatenated run text, to which a run without
    text adds nothing, or the default. *)
Definition display_text (hl : hyperlink_element) : string :=
  match String.concat "" (default "" <$> run_texts hl) with
  | EmptyString => "Unnamed Link"
  | joined => joined
  end.

(** The percent-decoded, path-normalized target of a hyperlink whose
    relationship id resolves in the relationship table. *)
Definition decoded_target (doc : document) (hl : hyperlink_element)
  : option string :=
  id ← r_id hl;
  if decide (id = "") then None
  else target_ref ← rels doc !! id;
       Some (normpath (unquote (strip target_ref))).

Definition lowercase_ends_with_pdf (url : string) : bool :=
  Str.endswith (Str.lower url) ".pdf".

Definition pdf_link (doc : document) (hl : hyperlink_element)
  : option hyperlink :=
  url ← decoded_target doc hl;
  if lowercase_ends_with_pdf url then Some (display_text hl, url) else None.

(** All hyperlinks of the document in document order, those kept whose
    target lowercase-ends with ".pdf". *)
Definition pdf_links_in_order (doc : document) : list hyperlink :=
  omap (pdf_link doc) (concat (paragraphs doc)).

End LinkExtraction.

(** ** Files *)

(** A page of a PDF: a generated cover page with the font, size and
    string of its one centred text, or a page of a source document. *)
Inductive page :=
  | CoverPage (font : string) (size : nat) (text : string)
  | BodyPage (content : string).

(** A file is a PDF that [PdfReader] can read, or anything else. *)
Inductive file :=
  | PdfFile (pages : list page)
  | OtherFile (raw : string).

(** [os.path.exists] on a file system given as a map from path to file. *)
Definition path_exists (files : gmap string file) (path : string) : bool :=
  match files !! path with
  | Some _ => true
  | None => false
  end.

(** ** Reconciliation against the central folder *)

Section Reconciliation.
Context `{Platform}.

(** [process_word_file], the body of the loop that checks which PDFs
    exist; the state is [(existing_pdfs, missing_pdfs)]. *)
Definition check_pdf (files : gmap string file) (central_pdf_folder : string)
    (st : list hyperlink * list hyperlink) (item : hyperlink)
  : list hyperlink * list hyperlink :=
  let '(existing_pdfs, missing_pdfs) := st in
  let '(link_text, pdf_filename) := item in
  let pdf_path := join central_pdf_folder (basename pdf_filename) in
  if path_exists files pdf_path
  then (existing_pdfs ++ [(link_text, pdf_filename)], missing_pdfs)
  else (existing_pdfs, missing_pdfs ++ [(link_text, pdf_filename)]).

Definition check_pdfs (files : gmap string file) (central_pdf_folder : string)
    (hyperlinks : list hyperlink) : list hyperlink * list hyperlink :=
  foldl (check_pdf files central_pdf_folder) ([], []) hyperlinks.

(** The predicate of the partition: [sourceDir/basename(targetPath)] exists. *)
Definition found (files : gmap string file) (central_pdf_folder : string)
    (item : hyperlink) : Prop :=
  path_exists files (join central_pdf_folder (basename item.2)) = true.

#[global] Instance found_dec files central item :
  Decision (found files central item).
Proof. unfold found. apply _. Defined.

End Reconciliation.

(** ** Names of the written files *)

(** The Arabic label ("Document Number") of the f-strings. *)
Definition document_number_label : string := "المستند رقم".

(** [f"المستند رقم {doc_number:03d}"] *)
Definition numbered_label (doc_number : nat) : string :=
  document_number_label +:+ " " +:+ Str.format_03d doc_number.

(** [f"المستند رقم {doc_number:03d} - {filename}"] *)
Definition renamed (doc_number : nat) (filename : string) : string :=
  numbered_label doc_number +:+ " - " +:+ filename.

(** The two toggles of the user interface. *)
Record options := {
  enable_renaming : bool;
  add_cover_page : bool;
}.

(** ** The report *)

(** What the worksheet does with a string that is put into a cell
    ([Cell.check_string] of openpyxl). *)
Module Openpyxl.

(** A character of [ILLEGAL_CHARACTERS_RE], which is
    [[\000-\010]|[\013-\014]|[\016-\037]] in octal: a control character
    other than tab, line feed and carriage return. *)
Definition illegal_character (c : ascii) : bool :=
  let n := nat_of_ascii c in
  ((n <=? 8) || (n =? 11) || (n =? 12) || ((14 <=? n) && (n <=? 31)))%nat.

Fixpoint has_illegal_character (s : string) : bool :=
  match s with
  | EmptyString => false
  | String c r => illegal_character c || has_illegal_character r
  end.

(** A byte that continues a multi-byte UTF-8 character. *)
Definition continuation_byte (c : ascii) : bool :=
  let n := nat_of_ascii c in
  ((128 <=? n) && (n <=? 191))%nat.

(** [value[:n]]: the first [n] characters, a character being a byte that
    is no continuation byte together with the continuation bytes that
    follow it. *)
Fixpoint take_characters (n : N) (value : string) : string :=
  match value with
  | EmptyString => EmptyString
  | String c r =>
      if continuation_byte c then String c (take_characters n r)
      else if (n =? 0)%N then EmptyString
      else String c (take_characters (N.pred n) r)
  end.

(** [check_string]: the string is cut to 32767 characters; it is stored
    unless an illegal character is left in it, in which case
    [IllegalCharacterError] is raised. *)
Definition check_string (value : string) : option string :=
  let value := take_characters 32767 value in
  if has_illegal_character value then None else Some value.

End Openpyxl.

(** A row of the sheet "All Links": the values of its four cells and the
    hyperlink set on the cell of the second column.  Fills and column
    widths are cosmetic and left out. *)
Record sheet_row := {
  link_text_cell : string;
  pdf_link_cell : string;
  document_number_cell : string;
  status_cell : string;
  pdf_link_hyperlink : option string;
}.

Definition header_row : sheet_row := {|
  link_text_cell := "Link Text";
  pdf_link_cell := "PDF Link";
  document_number_cell := "Document Number";
  status_cell := "Status";
  pdf_link_hyperlink := None;
|}.

Section Report.
Context `{Platform}.

(** [{url: status for _, url in pdfs}] *)
Definition status_dict (status : string) (pdfs : list hyperlink)
  : gmap string string :=
  foldl (λ d (item : hyperlink), <[item.2 := status]> d) ∅ pdfs.

(** The body of the loop that fills [doc_number_dict] and
    [renamed_files]; [unique_filenames[filename]] raises on a
    missing key. *)
Definition save_links_name (unique_filenames : gmap string nat)
    (st : gmap string string * gmap string string) (item : hyperlink)
  : option (gmap string string * gmap string string) :=
  let '(doc_number_dict, renamed_files) := st in
  let '(_, url) := item in
  let filename := basename url in
  doc_number ← unique_filenames !! filename;
  let doc_number_dict := <[url := numbered_label doc_number]> doc_number_dict in
  let new_name := renamed doc_number filename in
  Some (doc_number_dict, <[url := new_name]> renamed_files).

(** The file name the report links a found [url] to:
    [renamed_files.get(url, filename)]. *)
Definition save_links_new_filename (renamed_files : gmap string string)
    (url : string) : string :=
  let filename := basename url in
  default filename (renamed_files !! url).

(** The body of the loop that appends one row per hyperlink:
    [sheet1.append] checks the four strings and raises on an illegal
    character, and the hyperlink is then set on the second cell. *)
Definition save_links_row (destination_folder : string)
    (existing_dict missing_dict doc_number_dict renamed_files
       : gmap string string)
    (item : hyperlink) : option sheet_row :=
  let '(link_text, url) := item in
  let status :=
    default (default "Unknown" (missing_dict !! url)) (existing_dict !! url) in
  let doc_number := default "" (doc_number_dict !! url) in
  let filename := basename url in
  cell_1 ← Openpyxl.check_string link_text;
  cell_2 ← Openpyxl.check_string filename;
  cell_3 ← Openpyxl.check_string doc_number;
  cell_4 ← Openpyxl.check_string status;
  Some {| link_text_cell := cell_1;
          pdf_link_cell := cell_2;
          document_number_cell := cell_3;
          status_cell := cell_4;
          pdf_link_hyperlink :=
            if String.eqb status "Found" then
              let new_filename := save_links_new_filename renamed_files url in
              let local_path :=
                abspath (join destination_folder new_filename) in
              Some ("file:///"
                    +:+ Str.replace_char Str.backslash "/" local_path)
            else None |}.

(** [save_links_to_xlsx]: the rows of the sheet that is handed to
    [workbook.save], the header first; [None] when a row cannot be
    appended and the function raises before it saves. *)
Definition save_links_to_xlsx
    (all_hyperlinks existing_pdfs missing_pdfs : list hyperlink)
    (destination_folder : string) : option (list sheet_row) :=
  let sheet1 := [header_row] in
  let existing_dict := status_dict "Found" existing_pdfs in
  let missing_dict := status_dict "Missing" missing_pdfs in
  let unique_filenames := save_links_unique_filenames existing_pdfs in
  '(doc_number_dict, renamed_files) ←
    fold_option (save_links_name unique_filenames) (∅, ∅) existing_pdfs;
  fold_option
    (λ sheet1 item,
       row ← save_links_row destination_folder existing_dict missing_dict
               doc_number_dict renamed_files item;
       Some (sheet1 ++ [row]))
    sheet1 all_hyperlinks.

End Report.

(** ** The host of a run *)

(** What a path is to a program that wants to write a file there: a
    place where a file can be created or replaced, an existing
    directory, or a place where opening for writing is refused. *)
Inductive path_kind := Writable | IsDirectory | Refused.

(** What a run depends on outside the program: the optional shaping
    packages, the fonts, the directories and where files can be
    created. *)
Record host := {
  (* the import of bidi.algorithm and arabic_reshaper succeeded *)
  ARABIC_SUPPORT : bool;
  (* get_display(arabic_reshaper.reshape(text)); None when it raises *)
  reshape_display : string → option string;
  (* c.setFont(font, _) followed by c.drawCentredString(_, _, text)
     succeeds *)
  can_draw : string → string → bool;
  (* what each path is, once the destination folder has been made *)
  kind_of : string → path_kind;
  (* os.makedirs(path, exist_ok=True) succeeds *)
  can_makedirs : string → bool;
}.

(** The path can be opened for writing. *)
Definition can_write (h : host) (path : string) : bool :=
  match kind_of h path with
  | Writable => true
  | _ => false
  end.

(** [os.path.isdir(path)] *)
Definition is_dir (h : host) (path : string) : bool :=
  match kind_of h path with
  | IsDirectory => true
  | _ => false
  end.

(** ** The cover page *)

(** [create_cover_page]: the pages of the PDF in the returned buffer.
    [c.save()] closes the one page that was drawn on.  The last-resort
    branches draw digits in Helvetica-Bold, a standard font of every
    PDF canvas, which does not fail. *)
Definition create_cover_page (h : host) (doc_number : nat)
    (link_text pdf_filename : string) : list page :=
  let formatted_number := Str.of_nat doc_number in
  let arabic_text := document_number_label +:+ " " +:+ formatted_number in
  if ARABIC_SUPPORT h then
    match reshape_display h arabic_text with
    | Some bidi_text =>
        if can_draw h "Arabic" bidi_text
        then [CoverPage "Arabic" 24 bidi_text]
        else [CoverPage "Helvetica-Bold" 36 formatted_number]
    | None => [CoverPage "Helvetica-Bold" 36 formatted_number]
    end
  else
    if can_draw h "Times-Roman" arabic_text
    then [CoverPage "Times-Roman" 24 arabic_text]
    else [CoverPage "Helvetica-Bold" 36 formatted_number].

(** ** Effects: files, log and exceptions *)

Inductive exn :=
  | KeyError | IndexError | FileNotFoundError | PdfReadError
  | PermissionError | SameFileError | IsADirectoryError.

(** What a run leaves behind, in order. *)
Inductive event :=
  (* self.status_var.set(f"Processing {processed_count}/{total_files}: {new_name}") *)
  | EvStatus (processed_count total_files : nat) (new_name : string)
  (* logging.error(f"Error processing {source_path}: {e}") *)
  | EvLogError (source_path : string) (e : exn)
  (* shutil.copy(src, dst) was called *)
  | EvCopy (src dst : string)
  (* the file at path was created or replaced *)
  | EvWrite (path : string) (f : file).

Record world := {
  files : gmap string file;
  trace : list event;
}.

(** The announcements of items among the events. *)
Definition is_status (ev : event) : bool :=
  match ev with
  | EvStatus _ _ _ => true
  | _ => false
  end.

Inductive outcome (A : Type) :=
  | Ok (a : A)
  | Raise (e : exn).
Arguments Ok {A} a.
Arguments Raise {A} e.

(** A computation changes the world and returns or raises; what it did
    before it raised stays done. *)
Definition M (A : Type) : Type := world → outcome A * world.

Module Eff.

Definition ret {A} (a : A) : M A := λ w, (Ok a, w).

Definition bind {A B} (m : M A) (k : A → M B) : M B :=
  λ w, match m w with
       | (Ok a, w') => k a w'
       | (Raise e, w') => (Raise e, w')
       end.

Definition raise {A} (e : exn) : M A := λ w, (Raise e, w).

(** [try: m  except Exception as e: handler(e)] *)
Definition try_except {A} (m : M A) (handler : exn → M A) : M A :=
  λ w, match m w with
       | (Ok a, w') => (Ok a, w')
       | (Raise e, w') => handler e w'
       end.

Definition emit (ev : event) : M unit :=
  λ w, (Ok tt, {| files := files w; trace := trace w ++ [ev] |}).

(** [for x in l: s = body(s, x)] *)
Fixpoint for_each {S A} (body : S → A → M S) (s : S) (l : list A) : M S :=
  match l with
  | [] => ret s
  | x :: rest => bind (body s x) (λ s', for_each body s' rest)
  end.

End Eff.

Notation "x <- m ;; k" := (Eff.bind m (λ x, k))
  (at level 100, m at next level, right associativity, only parsing).
Notation "m ;;; k" := (Eff.bind m (λ _, k))
  (at level 100, right associativity, only parsing).

Section Primitives.
Context `{Platform}.
Variable h : host.

(** [d[key]] *)
Definition dict_index {V} (d : gmap string V) (key : string) : M V :=
  match d !! key with
  | Some v => Eff.ret v
  | None => Eff.raise KeyError
  end.

(** [pages[i]] *)
Definition pages_index (pages : list page) (i : nat) : M page :=
  match pages !! i with
  | Some p => Eff.ret p
  | None => Eff.raise IndexError
  end.

(** [PdfReader(path).pages] *)
Definition PdfReader (path : string) : M (list page) :=
  λ w, match files w !! path with
       | Some (PdfFile pages) => (Ok pages, w)
       | Some (OtherFile _) => (Raise PdfReadError, w)
       | None => (Raise FileNotFoundError, w)
       end.

(** Opening [path] for writing and writing [f]: a directory raises
    [IsADirectoryError]; any other refusal is [PermissionError] here. *)
Definition write_file (path : string) (f : file) : M unit :=
  λ w, if can_write h path
       then (Ok tt, {| files := <[path := f]> (files w);
                       trace := trace w ++ [EvWrite path f] |})
       else (Raise (if is_dir h path then IsADirectoryError
                    else PermissionError), w).

(** [with open(path, 'wb') as out: pdf_writer.write(out)] *)
Definition write_pdf (path : string) (pdf_writer : list page) : M unit :=
  write_file path (PdfFile pdf_writer).

(** Where [shutil.copy(src, dst)] writes: into [dst] under the name of
    the source when [dst] is a directory, to [dst] itself otherwise. *)
Definition copy_target (src dst : string) : string :=
  if is_dir h dst then join dst (basename src) else dst.

(** [shutil.copy(src, dst)] *)
Definition shutil_copy (src dst : string) : M unit :=
  Eff.emit (EvCopy src dst) ;;;
  let dst := copy_target src dst in
  (λ w, match files w !! src with
        | None => (Raise FileNotFoundError, w)
        | Some f =>
            if String.eqb src dst then (Raise SameFileError, w)
            else write_file dst f w
        end).

(** [os.makedirs(path, exist_ok=True)] *)
Definition makedirs (path : string) : M unit :=
  if can_makedirs h path then Eff.ret tt else Eff.raise PermissionError.

End Primitives.

(** ** The PDF transformer *)

Section Transformer.
Context `{Platform}.
Variable h : host.
Variable o : options.

(** The name under which [process_pdfs] writes a file. *)
Definition process_pdfs_new_name (doc_number : nat) (filename : string)
  : string :=
  if enable_renaming o then renamed doc_number filename else filename.

(** The body of the [try] of [process_pdfs]. *)
Definition transform_pdf (doc_number : nat) (link_text pdf_filename : string)
    (source_path dest_path : string) : M unit :=
  if add_cover_page o then
    let cover_buffer := create_cover_page h doc_number link_text pdf_filename in
    let pdf_writer : list page := [] in
    cover_page <- pages_index cover_buffer 0 ;;
    let pdf_writer := pdf_writer ++ [cover_page] in
    original_pages <- PdfReader source_path ;;
    let pdf_writer :=
      foldl (λ pdf_writer page, pdf_writer ++ [page]) pdf_writer original_pages in
    write_pdf h dest_path pdf_writer
  else
    shutil_copy h source_path dest_path.

(** The body of the second loop of [process_pdfs]; the loop state is
    [processed_count]. *)
Definition process_pdf (central_pdf_folder destination_folder : string)
    (unique_filenames : gmap string nat) (total_files : nat)
    (processed_count : nat) (item : hyperlink) : M nat :=
  let '(link_text, pdf_filename) := item in
  let filename := basename pdf_filename in
  doc_number <- dict_index unique_filenames filename ;;
  let source_path := join central_pdf_folder filename in
  let new_name := process_pdfs_new_name doc_number filename in
  let dest_path := join destination_folder new_name in
  let processed_count := processed_count + 1 in
  Eff.emit (EvStatus processed_count total_files new_name) ;;;
  Eff.try_except
    (transform_pdf doc_number link_text pdf_filename source_path dest_path)
    (λ e,
       Eff.emit (EvLogError source_path e) ;;;
       Eff.try_except (shutil_copy h source_path dest_path)
                      (λ _, Eff.ret tt)) ;;;
  Eff.ret processed_count.

Definition process_pdfs (existing_pdfs : list hyperlink)
    (central_pdf_folder destination_folder : string) : M unit :=
  makedirs h destination_folder ;;;
  let unique_filenames := process_pdfs_unique_filenames existing_pdfs in
  let total_files := length existing_pdfs in
  Eff.for_each
    (process_pdf central_pdf_folder destination_folder unique_filenames
                 total_files)
    0 existing_pdfs ;;;
  Eff.ret tt.

(** The specification's reading of a batch, to compare with the loop:
    the items are taken one after the other; an item is announced, then
    either its transformation succeeds, or it fails and, the error being
    logged, the verbatim copy of the source to the destination is
    attempted, and whatever the outcome of that copy the batch goes on
    with the next item. *)
Section Batch.
Variables central_pdf_folder destination_folder : string.
Variable unique_filenames : gmap string nat.
Variable total_files : nat.

(** The world once the item has been announced in the status line. *)
Definition announced (processed_count : nat) (new_name : string) (w : world)
  : world :=
  {| files := files w;
     trace := trace w ++ [EvStatus processed_count total_files new_name] |}.

(** The world once the failure of an item has been logged. *)
Definition logged (source_path : string) (e : exn) (w : world) : world :=
  {| files := files w; trace := trace w ++ [EvLogError source_path e] |}.

Inductive batch : nat → list hyperlink → world → world → Prop :=
  | batch_end processed_count w :
      batch processed_count [] w w
  | batch_transformed processed_count link_text pdf_filename rest
        doc_number w w1 w' :
      let filename := basename pdf_filename in
      let source_path := join central_pdf_folder filename in
      let new_name := process_pdfs_new_name doc_number filename in
      let dest_path := join destination_folder new_name in
      unique_filenames !! filename = Some doc_number →
      transform_pdf doc_number link_text pdf_filename source_path dest_path
        (announced (processed_count + 1) new_name w) = (Ok tt, w1) →
      batch (processed_count + 1) rest w1 w' →
      batch processed_count ((link_text, pdf_filename) :: rest) w w'
  | batch_fallback processed_count link_text pdf_filename rest
        doc_number e copied w w1 w2 w' :
      let filename := basename pdf_filename in
      let source_path := join central_pdf_folder filename in
      let new_name := process_pdfs_new_name doc_number filename in
      let dest_path := join destination_folder new_name in
      unique_filenames !! filename = Some doc_number →
      transform_pdf doc_number link_text pdf_filename source_path dest_path
        (announced (processed_count + 1) new_name w) = (Raise e, w1) →
      shutil_copy h source_path dest_path (logged source_path e w1)
        = (copied, w2) →
      batch (processed_count + 1) rest w2 w' →
      batch processed_count ((link_text, pdf_filename) :: rest) w w'.

End Batch.

End Transformer.

(** ** A small run *)

(** Scenario A of the specification: links to [a.pdf], [b.pdf] and
    [a.pdf] again, of which only [a.pdf] is in the central folder, on a
    host without the shaping packages where every file can be written. *)
Module Scenario.

Definition links : list hyperlink :=
  [("Annex A", "a.pdf"); ("Annex B", "b.pdf"); ("Annex A, again", "a.pdf")].

Definition central : string := "/central".
Definition destination : string := "/out".

Definition plain_host : host := {|
  ARABIC_SUPPORT := false;
  reshape_display := λ _, None;
  can_draw := λ _ _, true;
  kind_of := λ _, Writable;
  can_makedirs := λ _, true;
|}.

Definition start : world := {|
  files := {[ "/central/a.pdf" := PdfFile [BodyPage "a1"; BodyPage "a2"] ]};
  trace := [];
|}.

Definition resolved : list hyperlink :=
  (@check_pdfs Posix.platform (files start) central links).1.

Definition unresolved : list hyperlink :=
  (@check_pdfs Posix.platform (files start) central links).2.

End Scenario.

(** ** The invariant of the numbering loops *)

(** What the numbering loop keeps: the counter is one more than the
    size of the dict, and the numbers in the dict are exactly those
    from 1 up to its size. *)
Definition serial (st : gmap string nat * nat) : Prop :=
  st.2 = S (size st.1)
  ∧ (∀ (n : string) (k : nat), st.1 !! n = Some k → (1 ≤ k ≤ size st.1)%nat)
  ∧ (∀ k : nat, (1 ≤ k ≤ size st.1)%nat → ∃ n : string, st.1 !! n = Some k).

(** ** Changes of the file system *)

(** From [w] to [w'] no path other than [path] has changed, and no file
    has gone. *)
Definition only_touches (path : string) (w w' : world) : Prop :=
  (∀ p, p ≠ path → files w' !! p = files w !! p)
  ∧ (∀ p, path_exists (files w) p = true → path_exists (files w') p = true).

(** The same, for a list of paths that may have changed. *)
Definition only_touches_among (paths : list string) (w w' : world) : Prop :=
  (∀ p, p ∉ paths → files w' !! p = files w !! p)
  ∧ (∀ p, path_exists (files w) p = true → path_exists (files w') p = true).

(** ** Decimal digits *)

Definition is_digit (c : ascii) : bool :=
  let n := nat_of_ascii c in
  ((48 <=? n) && (n <=? 57))%nat.

Fixpoint all_digits (s : string) : bool :=
  match s with
  | EmptyString => true
  | String c r => is_digit c && all_digits r
  end.

(** ** Font registration *)

(** The messages of [register_arabic_fonts]. *)
Inductive font_log :=
  (* logging.info(f"Registered font from {font_path}") *)
  | LogRegistered (font_path : string)
  (* logging.warning(f"Failed to register font {font_path}: {e}") *)
  | LogRegisterFailed (font_path : string)
  (* logging.warning("Could not register any Arabic fonts") *)
  | LogNoFont.

(** What [register_arabic_fonts] returns and leaves: its result, the
    file registered under the name 'Arabic', and its messages. *)
Record font_result := {
  registered_ok : bool;
  arabic_font : option string;
  font_messages : list font_log;
}.

Section Fonts.
Context `{Platform}.

(** The candidate files, by [platform.system()] and the environment
    variable [SystemRoot]. *)
Definition font_paths (system : string) (SystemRoot : option string)
  : list string :=
  if String.eqb system "Windows" then
    let windows_font_dir := join (default "C:\Windows" SystemRoot) "Fonts" in
    [ join windows_font_dir "arial.ttf";
      join windows_font_dir "tahoma.ttf";
      join windows_font_dir "times.ttf";
      join windows_font_dir "arabtype.ttf";
      join windows_font_dir "simpo.ttf";
      join windows_font_dir "simpfxo.ttf" ]
  else if String.eqb system "Darwin" then
    [ "/Library/Fonts/Arial.ttf";
      "/Library/Fonts/ArialHB.ttc";
      "/System/Library/Fonts/Helvetica.ttc" ]
  else
    [ "/usr/share/fonts/truetype/liberation/LiberationSans-Regular.ttf";
      "/usr/share/fonts/truetype/freefont/FreeSans.ttf";
      "/usr/share/fonts/TTF/DejaVuSans.ttf" ].

(** The loop of [register_arabic_fonts] over the candidates, with the
    messages so far: the first candidate that exists and registers ends
    the loop; [can_register] tells whether
    [pdfmetrics.registerFont(TTFont('Arabic', font_path))] succeeds. *)
Fixpoint register_first (files : gmap string file)
    (can_register : string → bool) (candidates : list string)
    (messages : list font_log) : font_result :=
  match candidates with
  | [] =>
      {| registered_ok := false; arabic_font := None;
         font_messages := messages ++ [LogNoFont] |}
  | font_path :: rest =>
      if path_exists files font_path then
        if can_register font_path then
          {| registered_ok := true; arabic_font := Some font_path;
             font_messages := messages ++ [LogRegistered font_path] |}
        else
          register_first files can_register rest
            (messages ++ [LogRegisterFailed font_path])
      else register_first files can_register rest messages
  end.

Definition register_arabic_fonts (system : string) (SystemRoot : option string)
    (files : gmap string file) (can_register : string → bool) : font_result :=
  register_first files can_register (font_paths system SystemRoot) [].

End Fonts.

(** ** Plain copies *)

Section Copies.
Context `{Platform}.
Variable h : host.

(** [copy_file]; [logging.error] is recorded with the source and the
    exception. *)
Definition copy_file (source destination : string) : M unit :=
  Eff.try_except
    (shutil_copy h source destination)
    (λ e, Eff.emit (EvLogError source e)).

End Copies.

(** * Properties *)

(** ** Running the definitions *)

Example basename_nested : Posix.posix_basename "docs/sub/a.pdf" = "a.pdf".
Proof. reflexivity. Qed.

Example join_plain : Posix.posix_join "/central" "a.pdf" = "/central/a.pdf".
Proof. reflexivity. Qed.

Example format_03d_7 : Str.format_03d 7 = "007".
Proof. reflexivity. Qed.

Example format_03d_1234 : Str.format_03d 1234 = "1234".
Proof. reflexivity. Qed.

Example endswith_upper_pdf : Str.endswith (Str.lower "A/B.PDF") ".pdf" = true.
Proof. reflexivity. Qed.

Example first_occurrences_aba :
  first_occurrences ["a.pdf"; "b.pdf"; "a.pdf"; "c.pdf"] = ["a.pdf"; "b.pdf"; "c.pdf"].
Proof. reflexivity. Qed.

(** ** Strings *)

Lemma append_cons (c : ascii) (a b : string) :
  String c a +:+ b = String c (a +:+ b).
Proof. reflexivity. Qed.

Lemma append_empty_r (a : string) : a +:+ "" = a.
Proof.
  induction a as [|c a IH]; [done|]. by rewrite append_cons, IH.
Qed.

Lemma append_assoc (a b c : string) : (a +:+ b) +:+ c = a +:+ (b +:+ c).
Proof.
  induction a as [|x a IH]; [done|]. by rewrite !append_cons, IH.
Qed.

Lemma prefix_append (a b : string) : String.prefix a (a +:+ b) = true.
Proof.
  induction a as [|c a IH]; [by destruct b|].
  rewrite append_cons. simpl. by destruct (ascii_dec c c).
Qed.

Lemma contains_append_l (a b : string) : Str.contains (a +:+ b) a = true.
Proof.
  pose proof (prefix_append a b) as Hpre.
  destruct a as [|c a]; [by destruct b|].
  rewrite append_cons in *. cbn [Str.contains]. by rewrite Hpre.
Qed.

Lemma contains_append_r (a b : string) : Str.contains (a +:+ b) b = true.
Proof.
  induction a as [|c a IH].
  - change ("" +:+ b) with b.
    rewrite <- (append_empty_r b) at 1. apply contains_append_l.
  - rewrite append_cons. cbn [Str.contains]. rewrite IH.
    by destruct (String.prefix b _).
Qed.


Lemma all_digits_append (a b : string) :
  all_digits (a +:+ b) = all_digits a && all_digits b.
Proof.
  induction a as [|c a IH]; [done|].
  rewrite append_cons. simpl. rewrite IH. by destruct (is_digit c).
Qed.

Lemma string_of_uint_digits (d : Decimal.uint) :
  all_digits (NilEmpty.string_of_uint d) = true.
Proof. induction d; simpl; by rewrite ?IHd. Qed.

Lemma of_nat_digits (n : nat) : all_digits (Str.of_nat n) = true.
Proof.
  unfold Str.of_nat, NilZero.string_of_uint.
  destruct (Nat.to_uint n); try apply string_of_uint_digits. done.
Qed.

Lemma zeros_digits (k : nat) :
  all_digits (String.concat "" (replicate k "0")) = true.
Proof.
  induction k as [|k IH]; [done|].
  destruct k as [|k]; [done|].
  change (replicate (S (S k)) "0") with ("0" :: replicate (S k) "0").
  change (String.concat "" ("0" :: replicate (S k) "0"))
    with ("0" +:+ "" +:+ String.concat "" (replicate (S k) "0")).
  by rewrite !all_digits_append, IH.
Qed.

Lemma format_03d_digits (n : nat) : all_digits (Str.format_03d n) = true.
Proof.
  unfold Str.format_03d. by rewrite all_digits_append, zeros_digits, of_nat_digits.
Qed.

(** ** First occurrences *)

Lemma first_occurrences_elem (names : list string) (x : string) :
  x ∈ first_occurrences names ↔ x ∈ names.
Proof.
  induction names as [|n rest IH]; simpl; [done|].
  rewrite !elem_of_cons, list_elem_of_filter, IH.
  destruct (decide (x = n)); tauto.
Qed.

Lemma first_occurrences_NoDup (names : list string) :
  NoDup (first_occurrences names).
Proof.
  induction names as [|n rest IH]; simpl; [constructor|].
  constructor.
  - rewrite list_elem_of_filter. intros [Hn _]. by apply Hn.
  - by apply NoDup_filter.
Qed.

(** Two filters in a row are one filter. *)
Lemma filter_filter_as {A} (P Q R : A → Prop)
    `{!∀ x, Decision (P x)} `{!∀ x, Decision (Q x)} `{!∀ x, Decision (R x)}
    (l : list A) :
  (∀ x, P x ∧ Q x ↔ R x) → filter P (filter Q l) = filter R l.
Proof.
  intros HR. rewrite list_filter_filter. by apply list_filter_iff.
Qed.

(** A filter whose predicate always holds keeps the list. *)
Lemma filter_all {A} (P : A → Prop) `{!∀ x, Decision (P x)} (l : list A) :
  (∀ x, P x) → filter P l = l.
Proof.
  intros HP. induction l as [|x l IH]; [done|].
  rewrite filter_cons_True by done. by rewrite IH.
Qed.

(** ** Document numbers *)

Section NumberingFacts.
Context `{Platform}.

(** The loop started from any dict [m] and counter [c]: old keys keep
    their number, and the new basenames are numbered [c], [c+1], ... in
    the order of their first occurrence. *)
Lemma process_pdfs_assign_spec (links : list hyperlink) :
  ∀ (m : gmap string nat) (c : nat) (n : string) (k : nat),
    (foldl process_pdfs_assign (m, c) links).1 !! n = Some k ↔
    m !! n = Some k ∨
    (m !! n = None ∧
     ∃ i, k = c + i ∧
          filter (λ x, m !! x = None) (first_occurrences (basenames links)) !! i
          = Some n).
Proof.
  induction links as [|[text url] rest IH]; intros m c n k; simpl.
  - split; [by left|]. intros [?|(_ & i & _ & Hi)]; [done|].
    by destruct i.
  - destruct (m !! basename url) as [old|] eqn:Hlook.
    + rewrite IH. rewrite filter_cons_False by (rewrite Hlook; intros [=]).
      rewrite (filter_filter_as _ _ (λ x, m !! x = None)); [done|].
      intros x. split; [tauto|]. intros Hx. split; [done|].
      intros ->. congruence.
    + rewrite IH. rewrite filter_cons_True by done.
      rewrite (filter_filter_as _ _ (λ x, <[basename url := c]> m !! x = None));
        last first.
      { intros x. rewrite lookup_insert_None. split; intros [? ?]; split; congruence. }
      destruct (decide (n = basename url)) as [->|Hne].
      * rewrite lookup_insert_eq. split.
        -- intros [[= <-]|[? _]]; [|done]. right. split; [done|].
           exists 0. split; [lia|done].
        -- intros [?|(_ & i & -> & Hi)]; [congruence|].
           destruct i as [|i]; [left; f_equal; lia|].
           simpl in Hi. apply list_elem_of_lookup_2 in Hi.
           apply list_elem_of_filter in Hi as [Hi _].
           by rewrite lookup_insert_eq in Hi.
      * rewrite lookup_insert_ne by done. split.
        -- intros [?|(Hn & i & -> & Hi)]; [by left|]. right. split; [done|].
           exists (S i). split; [lia|done].
        -- intros [?|(Hn & i & -> & Hi)]; [by left|].
           destruct i as [|i]; [simpl in Hi; congruence|].
           right. split; [done|]. exists i. split; [lia|done].
Qed.

(** The number of a basename is its position among the first
    occurrences, counted from 1. *)
Lemma process_pdfs_unique_filenames_lookup (links : list hyperlink) n k :
  process_pdfs_unique_filenames links !! n = Some k ↔
  ∃ i, k = S i ∧ first_occurrences (basenames links) !! i = Some n.
Proof.
  unfold process_pdfs_unique_filenames. rewrite process_pdfs_assign_spec.
  rewrite lookup_empty.
  rewrite filter_all by (intros; apply lookup_empty).
  split.
  - intros [[=]|(_ & i & -> & Hi)]. by exists i.
  - intros (i & -> & Hi). right. split; [done|]. by exists i.
Qed.

(** Every resolved hyperlink has a number: [unique_filenames[filename]]
    of the later loops does not raise. *)
Lemma process_pdfs_unique_filenames_total (links : list hyperlink)
    (item : hyperlink) :
  item ∈ links → is_Some (process_pdfs_unique_filenames links !! basename item.2).
Proof.
  intros Hin.
  assert (basename item.2 ∈ first_occurrences (basenames links)) as Hfo.
  { apply first_occurrences_elem. unfold basenames.
    apply list_elem_of_fmap. by exists item. }
  apply list_elem_of_lookup in Hfo as [i Hi].
  exists (S i). apply process_pdfs_unique_filenames_lookup. by exists i.
Qed.

(** The two numbering loops take the same step from the same state. *)
Lemma save_links_assign_eq (st : numbering) (item : hyperlink) :
  save_links_assign st item = process_pdfs_assign st item.
Proof. by destruct st as [m c], item as [text url]. Qed.

Lemma save_links_fold_eq (links : list hyperlink) (st : numbering) :
  foldl save_links_assign st links = foldl process_pdfs_assign st links.
Proof.
  revert st. induction links as [|item rest IH]; intros st; simpl; [done|].
  by rewrite save_links_assign_eq, IH.
Qed.

(** C3. The document-number assignment of [process_pdfs] maps each
    distinct basename of the resolved sequence to a serial number:
    the basename at position [i] (from 0) among the first occurrences
    gets [i + 1], so the numbers are 1, 2, 3, ... in first-encounter
    order; every resolved hyperlink has a number; and two numbered
    basenames have the same number exactly when they are the same
    string. *)
Theorem document_numbers_first_encounter (existing_pdfs : list hyperlink) :
  let m := process_pdfs_unique_filenames existing_pdfs in
  (∀ (n : string) (k : nat),
      m !! n = Some k ↔
      ∃ i, k = S i ∧ first_occurrences (basenames existing_pdfs) !! i = Some n)
  ∧ (∀ item : hyperlink,
        item ∈ existing_pdfs → is_Some (m !! basename item.2))
  ∧ (∀ (a b : string) (ka kb : nat),
        m !! a = Some ka → m !! b = Some kb → (ka = kb ↔ a = b)).
Proof.
  intros m. split; [|split].
  - apply process_pdfs_unique_filenames_lookup.
  - intros item. apply process_pdfs_unique_filenames_total.
  - intros a b ka kb Ha Hb. split.
    + intros <-.
      apply process_pdfs_unique_filenames_lookup in Ha as (i & -> & Hi).
      apply process_pdfs_unique_filenames_lookup in Hb as (j & [= <-] & Hj).
      congruence.
    + intros <-. congruence.
Qed.

(** C4. The basename-to-number mapping that [save_links_to_xlsx]
    recomputes from the resolved sequence is the mapping that
    [process_pdfs] computes from it. *)
Theorem report_numbering_agrees (existing_pdfs : list hyperlink) :
  save_links_unique_filenames existing_pdfs
  = process_pdfs_unique_filenames existing_pdfs.
Proof.
  unfold save_links_unique_filenames, process_pdfs_unique_filenames.
  by rewrite save_links_fold_eq.
Qed.

End NumberingFacts.

(** ** Link extraction *)

Example unnamed_link_default :
  display_text {| run_texts := [Some ""; None]; r_id := Some "rId1" |}
  = "Unnamed Link".
Proof. reflexivity. Qed.

Lemma str_join_cons (sep : string) (item : option string)
    (rest : list (option string)) :
  rest ≠ [] →
  str_join sep (item :: rest)
  = (first ← item; others ← str_join sep rest;
     Some (first +:+ sep +:+ others)).
Proof. by destruct rest. Qed.

(** The join raises exactly when an item is [None]. *)
Lemma str_join_None (sep : string) (items : list (option string)) :
  str_join sep items = None ↔ None ∈ items.
Proof.
  induction items as [|item rest IH]; [by rewrite elem_of_nil|].
  rewrite elem_of_cons. destruct rest as [|item' rest].
  - simpl. rewrite elem_of_nil. split; [intros ->; by left|]. by intros [<-|[]].
  - rewrite str_join_cons by done. rewrite <- IH.
    generalize (str_join sep (item' :: rest)). intros r.
    destruct item as [first|], r as [others|]; simpl.
    + split; [done|]. by intros [?|?].
    + split; [by right|done].
    + split; [by left|done].
    + split; [by left|done].
Qed.

Lemma concat_cons (sep x : string) (rest : list string) :
  rest ≠ [] →
  String.concat sep (x :: rest) = x +:+ sep +:+ String.concat sep rest.
Proof. by destruct rest. Qed.

(** A join that returns is the concatenation of the texts. *)
Lemma str_join_Some (sep : string) (items : list (option string))
    (joined : string) :
  str_join sep items = Some joined →
  joined = String.concat sep (default "" <$> items).
Proof.
  revert joined. induction items as [|item rest IH]; intros joined.
  - by intros [= <-].
  - destruct rest as [|item' rest].
    + simpl. by intros ->.
    + rewrite str_join_cons by done. rewrite fmap_cons.
      rewrite concat_cons by done.
      revert IH. generalize (str_join sep (item' :: rest)). intros r IH.
      destruct item as [first|], r as [others|]; simpl; try done.
      intros [= <-]. by rewrite (IH others).
Qed.

Section ExtractionFacts.
Context `{Platform}.

Lemma str_or_display_text (hl : hyperlink_element) (joined : string) :
  str_join "" (run_texts hl) = Some joined →
  str_or joined "Unnamed Link" = display_text hl.
Proof.
  intros ->%str_join_Some. unfold str_or, display_text.
  by destruct (String.concat "" _).
Qed.

(** One hyperlink element raises if a run has no text, and appends its
    PDF link, if it has one, otherwise. *)
Lemma extract_hyperlink_None (doc : document) (acc : list hyperlink)
    (hl : hyperlink_element) :
  extract_hyperlink doc acc hl = None ↔ ¬ has_texts hl.
Proof.
  unfold extract_hyperlink, has_texts.
  destruct (str_join "" (run_texts hl)) as [joined|] eqn:Hjoin; simpl.
  - assert (None ∉ run_texts hl) as Hin.
    { rewrite <- (str_join_None ""). congruence. }
    split; [|done].
    destruct (r_id hl) as [id|]; [|done].
    destruct (negb (String.eqb id "")); [|done].
    destruct (rels doc !! id); [|done].
    by destruct (Str.endswith _ _).
  - apply str_join_None in Hjoin. split; [|done]. intros _ Hnot. by apply Hnot.
Qed.

Lemma extract_hyperlink_Some (doc : document) (acc : list hyperlink)
    (hl : hyperlink_element) :
  has_texts hl →
  extract_hyperlink doc acc hl
  = Some (acc ++ from_option (λ l, [l]) [] (pdf_link doc hl)).
Proof.
  unfold has_texts. rewrite <- (str_join_None ""). intros Hjoin.
  unfold extract_hyperlink, pdf_link, decoded_target, lowercase_ends_with_pdf.
  destruct (str_join "" (run_texts hl)) as [joined|] eqn:Hj; [|done]. simpl.
  rewrite (str_or_display_text hl joined Hj).
  destruct (r_id hl) as [id|]; simpl; [|by rewrite app_nil_r].
  destruct (String.eqb_spec id "") as [->|Hid]; simpl.
  { by rewrite app_nil_r. }
  rewrite decide_False by done.
  destruct (rels doc !! id) as [target_ref|]; simpl; [|by rewrite app_nil_r].
  destruct (Str.endswith _ _); simpl; [done|by rewrite app_nil_r].
Qed.

Lemma extract_paragraph_Some (doc : document) (para : list hyperlink_element) :
  Forall has_texts para →
  ∀ acc, fold_option (extract_hyperlink doc) acc para
         = Some (acc ++ omap (pdf_link doc) para).
Proof.
  induction 1 as [|hl para Hhl _ IH]; intros acc; simpl.
  - by rewrite app_nil_r.
  - rewrite extract_hyperlink_Some by done. simpl. rewrite IH, <- app_assoc.
    by destruct (pdf_link doc hl).
Qed.

Lemma extract_paragraph_is_Some (doc : document)
    (para : list hyperlink_element) :
  ∀ acc, is_Some (fold_option (extract_hyperlink doc) acc para) →
         Forall has_texts para.
Proof.
  induction para as [|hl para IH]; intros acc Hsome; [constructor|].
  simpl in Hsome.
  destruct (extract_hyperlink doc acc hl) as [acc'|] eqn:Hhl; simpl in Hsome;
    [|by destruct Hsome].
  constructor; [|by eapply IH].
  destruct (decide (has_texts hl)) as [|Hnot]; [done|].
  pose proof (proj2 (extract_hyperlink_None doc acc hl) Hnot). congruence.
Qed.

Lemma extract_paragraphs_Some (doc : document)
    (paras : list (list hyperlink_element)) :
  Forall has_texts (concat paras) →
  ∀ acc,
    fold_option
      (λ hyperlinks para, fold_option (extract_hyperlink doc) hyperlinks para)
      acc paras
    = Some (acc ++ omap (pdf_link doc) (concat paras)).
Proof.
  induction paras as [|para paras IH]; intros Hall acc; simpl.
  - by rewrite app_nil_r.
  - simpl in Hall. apply Forall_app in Hall as [Hpara Hrest].
    rewrite extract_paragraph_Some by done. simpl.
    by rewrite IH, omap_app, app_assoc.
Qed.

Lemma extract_paragraphs_is_Some (doc : document)
    (paras : list (list hyperlink_element)) :
  ∀ acc,
    is_Some
      (fold_option
         (λ hyperlinks para,
            fold_option (extract_hyperlink doc) hyperlinks para)
         acc paras) →
    Forall has_texts (concat paras).
Proof.
  induction paras as [|para paras IH]; intros acc Hsome; [constructor|].
  simpl in *.
  destruct (fold_option (extract_hyperlink doc) acc para) as [acc'|] eqn:Hpara;
    simpl in Hsome; [|by destruct Hsome].
  apply Forall_app. split; [|by eapply IH].
  eapply extract_paragraph_is_Some. by rewrite Hpara.
Qed.

(** Where every run of every hyperlink has text, [extract_hyperlinks]
    returns, in document order and with duplicates kept, exactly the
    hyperlinks whose percent-decoded, path-normalized target ends with
    ".pdf" once lowercased, each with its concatenated run text, or with
    "Unnamed Link" when that text is empty; where a run has no text it
    raises. *)
Lemma extract_hyperlinks_returns (doc : document) :
  Forall has_texts (concat (paragraphs doc)) →
  extract_hyperlinks doc = Some (pdf_links_in_order doc).
Proof.
  intros Hall. unfold extract_hyperlinks, pdf_links_in_order.
  by rewrite extract_paragraphs_Some.
Qed.

Lemma extract_hyperlinks_raises (doc : document) :
  extract_hyperlinks doc = None ↔
  ∃ hl, hl ∈ concat (paragraphs doc) ∧ None ∈ run_texts hl.
Proof.
  split.
  - intros Hnone.
    destruct (decide (Forall has_texts (concat (paragraphs doc)))) as [Hall|Hnot].
    { rewrite extract_hyperlinks_returns in Hnone by done. done. }
    apply not_Forall_Exists in Hnot; [|apply _].
    apply Exists_exists in Hnot as (hl & Hin & Hhl). exists hl. split; [done|].
    unfold has_texts in Hhl. by apply dec_stable.
  - intros (hl & Hin & Hnone).
    destruct (extract_hyperlinks doc) as [links|] eqn:Hrun; [|done].
    exfalso. assert (Forall has_texts (concat (paragraphs doc))) as Hall.
    { eapply extract_paragraphs_is_Some. unfold extract_hyperlinks in Hrun.
      by rewrite Hrun. }
    rewrite Forall_forall in Hall. by apply (Hall hl Hin).
Qed.

End ExtractionFacts.

(** A target in capitals is kept, a target that is no PDF is dropped, a
    hyperlink without a relationship is skipped, and a duplicate stays. *)
Example extract_hyperlinks_run :
  let doc := {|
    paragraphs :=
      [ [ {| run_texts := [Some "Annex "; Some "A"]; r_id := Some "rId1" |};
          {| run_texts := []; r_id := Some "rId2" |} ];
        [ {| run_texts := [Some "notes"]; r_id := Some "rId3" |};
          {| run_texts := [Some "anchor"]; r_id := None |};
          {| run_texts := [Some "Annex A again"]; r_id := Some "rId1" |} ] ];
    rels := <["rId1" := "docs/A.PDF"]>
            (<["rId2" := "b.pdf"]> (<["rId3" := "notes.docx"]> ∅));
  |} in
  @extract_hyperlinks Posix.platform doc
  = Some [("Annex A", "docs/A.PDF"); ("Unnamed Link", "b.pdf");
          ("Annex A again", "docs/A.PDF")].
Proof. vm_compute. reflexivity. Qed.

(** C5 fails on a hyperlink with an empty run.  For a document whose one
    hyperlink to [b.pdf] holds a single empty [<w:t/>], the lowercased
    target ends with ".pdf" and the concatenated run text is empty, so
    the hyperlink is to be returned with the text "Unnamed Link"; the
    join of [extract_hyperlinks] raises on the text [None] and nothing
    is returned.  The same happens when the hyperlink is no PDF link at
    all, since the join comes before the test of the target. *)
Theorem extract_hyperlinks_empty_run_raises :
  let doc := {|
    paragraphs := [ [ {| run_texts := [None]; r_id := Some "rId1" |} ] ];
    rels := {[ "rId1" := "b.pdf" ]};
  |} in
  let other := {|
    paragraphs := [ [ {| run_texts := [Some "see"; None]; r_id := None |} ] ];
    rels := ∅;
  |} in
  @pdf_links_in_order Posix.platform doc = [("Unnamed Link", "b.pdf")]
  ∧ @extract_hyperlinks Posix.platform doc = None
  ∧ @pdf_links_in_order Posix.platform other = []
  ∧ @extract_hyperlinks Posix.platform other = None.
Proof. vm_compute. done. Qed.

(** ** Reconciliation *)

Section ReconciliationFacts.
Context `{Platform}.
Variable files : gmap string file.
Variable central : string.

Lemma check_pdfs_fold (hyperlinks : list hyperlink) :
  ∀ existing missing,
    foldl (check_pdf files central) (existing, missing) hyperlinks
    = (existing ++ filter (found files central) hyperlinks,
       missing ++ filter (λ item, ¬ found files central item) hyperlinks).
Proof.
  induction hyperlinks as [|[text url] rest IH]; intros existing missing; simpl.
  - by rewrite !app_nil_r.
  - destruct (path_exists files (join central (basename url))) eqn:Hex.
    + rewrite IH, filter_cons_True, filter_cons_False, <- app_assoc; try done.
      unfold found; simpl. rewrite Hex. by intros Hn.
    + rewrite IH, filter_cons_False, filter_cons_True, <- app_assoc; try done.
      all: unfold found; simpl; rewrite Hex; by intros [=].
Qed.

(** C6. The loop of [process_word_file] that checks which PDFs exist
    splits the hyperlinks by the existence of
    [central/basename(target)]: the resolved sequence is the input
    filtered by that predicate and the unresolved one the input
    filtered by its negation, so each keeps the input's relative
    order, every hyperlink is in exactly one of the two, and together
    they are a rearrangement of the input. *)
Theorem check_pdfs_partition (hyperlinks : list hyperlink) :
  let '(existing_pdfs, missing_pdfs) := check_pdfs files central hyperlinks in
  existing_pdfs = filter (found files central) hyperlinks
  ∧ missing_pdfs = filter (λ item, ¬ found files central item) hyperlinks
  ∧ existing_pdfs `sublist_of` hyperlinks
  ∧ missing_pdfs `sublist_of` hyperlinks
  ∧ (existing_pdfs ++ missing_pdfs) ≡ₚ hyperlinks
  ∧ (∀ item, item ∈ hyperlinks →
       (item ∈ existing_pdfs ∧ (item ∉ missing_pdfs))
       ∨ ((item ∉ existing_pdfs) ∧ item ∈ missing_pdfs)).
Proof.
  unfold check_pdfs. rewrite check_pdfs_fold. simpl.
  repeat split.
  - apply sublist_filter.
  - apply sublist_filter.
  - apply filter_app_complement.
  - intros item Hin. rewrite !list_elem_of_filter.
    destruct (decide (found files central item)); tauto.
Qed.

End ReconciliationFacts.

(** ** The report *)

Section ReportFacts.
Context `{Platform}.

(** [{url: status for _, url in pdfs}] has exactly the urls of [pdfs] as
    keys, each with the value [status]. *)
Lemma status_dict_fold (status : string) (pdfs : list hyperlink) :
  ∀ (d : gmap string string) (url : string),
    foldl (λ d (item : hyperlink), <[item.2 := status]> d) d pdfs !! url
    = if decide (url ∈ pdfs.*2) then Some status else d !! url.
Proof.
  induction pdfs as [|[text u] rest IH]; intros d url; [done|].
  cbn [foldl]. rewrite IH, fmap_cons. cbn [snd].
  - destruct (decide (url ∈ rest.*2)) as [Hin|Hnin].
    + rewrite decide_True; [done|]. by right.
    + destruct (decide (url = u)) as [->|Hne].
      * rewrite lookup_insert_eq, decide_True; [done|]. by left.
      * rewrite lookup_insert_ne by done. rewrite decide_False; [done|].
        by intros [?|?]%elem_of_cons.
Qed.

Lemma status_dict_lookup (status : string) (pdfs : list hyperlink) (url : string) :
  status_dict status pdfs !! url
  = if decide (url ∈ pdfs.*2) then Some status else None.
Proof. unfold status_dict. by rewrite status_dict_fold, lookup_empty. Qed.

(** The loop that fills [doc_number_dict] and [renamed_files] does not
    raise when every item has a number, and it maps each url of the
    resolved sequence to the label and the name of its basename's
    number. *)
Lemma save_links_name_fold (m : gmap string nat) (links : list hyperlink) :
  (∀ item : hyperlink, item ∈ links → is_Some (m !! basename item.2)) →
  ∀ d0 r0 : gmap string string,
    ∃ d r,
      fold_option (save_links_name m) (d0, r0) links = Some (d, r)
      ∧ (∀ url, d !! url
                = if decide (url ∈ links.*2)
                  then numbered_label <$> m !! basename url
                  else d0 !! url)
      ∧ (∀ url, r !! url
                = if decide (url ∈ links.*2)
                  then (λ k, renamed k (basename url)) <$> m !! basename url
                  else r0 !! url).
Proof.
  induction links as [|[text u] rest IH]; intros Hnum d0 r0.
  - by exists d0, r0.
  - destruct (Hnum (text, u)) as [k Hk]; [by left|]. cbn [snd] in Hk.
    cbn [fold_option save_links_name]. rewrite Hk. cbn [mbind option_bind].
    destruct (IH (λ item Hin, Hnum item (list_elem_of_further _ _ _ Hin))
                (<[u := numbered_label k]> d0)
                (<[u := renamed k (basename u)]> r0)) as (d & r & Hfold & Hd & Hr).
    exists d, r. split; [done|].
    split; intros url; [rewrite Hd|rewrite Hr]; rewrite fmap_cons; cbn [snd].
    all: destruct (decide (url ∈ rest.*2)) as [Hin|Hnin];
      [rewrite decide_True; [done|by right]|].
    all: destruct (decide (url = u)) as [->|Hne];
      [rewrite lookup_insert_eq, decide_True, Hk; [done|by left]|].
    all: rewrite lookup_insert_ne by done; rewrite decide_False; [done|].
    all: by intros [?|?]%elem_of_cons.
Qed.

Lemma append_rows_fold {A} (f : A → option sheet_row) (l : list A) :
  ∀ sheet1,
    fold_option (λ sheet1 item, row ← f item; Some (sheet1 ++ [row])) sheet1 l
    = rows ← mapM f l; Some (sheet1 ++ rows).
Proof.
  induction l as [|x l IH]; intros sheet1; simpl.
  - by rewrite app_nil_r.
  - destruct (f x) as [row|]; simpl; [|done].
    rewrite IH. destruct (mapM f l) as [rows|]; simpl; [|done].
    by rewrite <- app_assoc.
Qed.

(** [save_links_to_xlsx] raises only where a row is appended; the sheet
    is the header and one row per hyperlink, computed from the two status
    dicts and from [doc_number_dict] and [renamed_files], which hold the
    label and the name for every resolved url. *)
Lemma save_links_to_xlsx_rows
    (all_hyperlinks existing_pdfs missing_pdfs : list hyperlink)
    (destination_folder : string) :
  let m := process_pdfs_unique_filenames existing_pdfs in
  ∃ doc_number_dict renamed_files : gmap string string,
    save_links_to_xlsx all_hyperlinks existing_pdfs missing_pdfs destination_folder
    = (rows ← mapM (save_links_row destination_folder
                      (status_dict "Found" existing_pdfs)
                      (status_dict "Missing" missing_pdfs)
                      doc_number_dict renamed_files) all_hyperlinks;
       Some (header_row :: rows))
    ∧ (∀ url, doc_number_dict !! url
              = if decide (url ∈ existing_pdfs.*2)
                then numbered_label <$> m !! basename url else None)
    ∧ (∀ url, renamed_files !! url
              = if decide (url ∈ existing_pdfs.*2)
                then (λ k, renamed k (basename url)) <$> m !! basename url
                else None).
Proof.
  intros m. unfold save_links_to_xlsx, save_links_unique_filenames.
  rewrite save_links_fold_eq. fold (process_pdfs_unique_filenames existing_pdfs).
  fold m.
  destruct (save_links_name_fold m existing_pdfs
              (process_pdfs_unique_filenames_total existing_pdfs) ∅ ∅)
    as (d & r & Hfold & Hd & Hr).
  exists d, r. rewrite Hfold. cbn [mbind option_bind].
  rewrite append_rows_fold.
  split; [done|].
  split; intros url; [rewrite Hd|rewrite Hr]; by rewrite lookup_empty.
Qed.

(** *** What the worksheet stores *)

Lemma has_illegal_character_append (a b : string) :
  Openpyxl.has_illegal_character (a +:+ b)
  = Openpyxl.has_illegal_character a || Openpyxl.has_illegal_character b.
Proof.
  induction a as [|c a IH]; [done|].
  rewrite append_cons. simpl. by rewrite IH, orb_assoc.
Qed.

Lemma digit_legal (c : ascii) :
  is_digit c = true → Openpyxl.illegal_character c = false.
Proof. by destruct c as [[] [] [] [] [] [] [] []]. Qed.

Lemma digits_legal (s : string) :
  all_digits s = true → Openpyxl.has_illegal_character s = false.
Proof.
  induction s as [|c s IH]; [done|]. simpl.
  intros [Hc Hs]%andb_true_iff. by rewrite (digit_legal c Hc), IH.
Qed.

Lemma numbered_label_legal (doc_number : nat) :
  Openpyxl.has_illegal_character (numbered_label doc_number) = false.
Proof.
  unfold numbered_label.
  rewrite !has_illegal_character_append,
    (digits_legal _ (format_03d_digits doc_number)).
  reflexivity.
Qed.

Lemma take_characters_legal (n : N) (s : string) :
  Openpyxl.has_illegal_character s = false →
  Openpyxl.has_illegal_character (Openpyxl.take_characters n s) = false.
Proof.
  revert n. induction s as [|c s IH]; intros n; [done|].
  cbn [Openpyxl.has_illegal_character Openpyxl.take_characters].
  intros [Hc Hs]%orb_false_iff.
  destruct (Openpyxl.continuation_byte c);
    [|destruct (n =? 0)%N; [done|]];
    cbn [Openpyxl.has_illegal_character]; rewrite Hc; by apply IH.
Qed.

(** A string of at most [n] bytes has at most [n] characters. *)
Lemma take_characters_short (n : N) (s : string) :
  (N.of_nat (String.length s) ≤ n)%N → Openpyxl.take_characters n s = s.
Proof.
  revert n. induction s as [|c s IH]; intros n Hn; [done|].
  cbn [Openpyxl.take_characters String.length] in *.
  destruct (Openpyxl.continuation_byte c); [rewrite IH; [done|lia]|].
  destruct (N.eqb_spec n 0) as [->|Hne]; [lia|].
  rewrite IH; [done|lia].
Qed.

(** A string without an illegal character is stored, cut to 32767
    characters. *)
Lemma check_string_legal (s : string) :
  Openpyxl.has_illegal_character s = false →
  Openpyxl.check_string s = Some (Openpyxl.take_characters 32767 s).
Proof.
  intros Hs. unfold Openpyxl.check_string.
  by rewrite (take_characters_legal _ _ Hs).
Qed.

Lemma check_string_Some (s cell : string) :
  Openpyxl.check_string s = Some cell →
  cell = Openpyxl.take_characters 32767 s.
Proof.
  unfold Openpyxl.check_string.
  destruct (Openpyxl.has_illegal_character _); [done|]. by intros [= <-].
Qed.

Lemma check_string_statuses :
  Openpyxl.check_string "Found" = Some "Found"
  ∧ Openpyxl.check_string "Missing" = Some "Missing"
  ∧ Openpyxl.check_string "Unknown" = Some "Unknown"
  ∧ Openpyxl.check_string "" = Some "".
Proof. vm_compute. done. Qed.

(** The row of a hyperlink: [sheet1.append] raises only on the link text
    or on the basename; the document number and the status are stored as
    they are looked up, the number cut to 32767 characters. *)
Lemma save_links_row_cells (destination_folder : string)
    (existing_pdfs missing_pdfs : list hyperlink)
    (doc_number_dict renamed_files : gmap string string)
    (link_text url : string) :
  (∀ url, doc_number_dict !! url
          = if decide (url ∈ existing_pdfs.*2)
            then numbered_label
                 <$> process_pdfs_unique_filenames existing_pdfs !! basename url
            else None) →
  save_links_row destination_folder
    (status_dict "Found" existing_pdfs) (status_dict "Missing" missing_pdfs)
    doc_number_dict renamed_files (link_text, url)
  = (cell_1 ← Openpyxl.check_string link_text;
     cell_2 ← Openpyxl.check_string (basename url);
     Some {| link_text_cell := cell_1;
             pdf_link_cell := cell_2;
             document_number_cell :=
               Openpyxl.take_characters 32767
                 (default "" (doc_number_dict !! url));
             status_cell :=
               if decide (url ∈ existing_pdfs.*2) then "Found"
               else if decide (url ∈ missing_pdfs.*2) then "Missing"
               else "Unknown";
             pdf_link_hyperlink :=
               if decide (url ∈ existing_pdfs.*2) then
                 Some ("file:///"
                       +:+ Str.replace_char Str.backslash "/"
                             (abspath
                                (join destination_folder
                                   (save_links_new_filename renamed_files url))))
               else None |}).
Proof.
  intros Hd. unfold save_links_row.
  destruct check_string_statuses as (HF & HM & HU & _).
  assert (Openpyxl.check_string (default "" (doc_number_dict !! url))
          = Some (Openpyxl.take_characters 32767
                    (default "" (doc_number_dict !! url)))) as Hnumber.
  { apply check_string_legal. rewrite Hd.
    destruct (decide (url ∈ existing_pdfs.*2)); [|done].
    destruct (process_pdfs_unique_filenames existing_pdfs !! basename url);
      [apply numbered_label_legal|done]. }
  rewrite Hnumber, !status_dict_lookup.
  destruct (Openpyxl.check_string link_text) as [cell_1|]; [|done].
  destruct (Openpyxl.check_string (basename url)) as [cell_2|]; [|done].
  cbn [mbind option_bind].
  destruct (decide (url ∈ existing_pdfs.*2)).
  { cbn [from_option id]. by rewrite HF. }
  destruct (decide (url ∈ missing_pdfs.*2)); cbn [from_option id].
  - by rewrite HM.
  - by rewrite HU.
Qed.

(** The rows of a sheet that is written. *)
Lemma save_links_to_xlsx_Some
    (all_hyperlinks existing_pdfs missing_pdfs : list hyperlink)
    (destination_folder : string) (sheet : list sheet_row) :
  save_links_to_xlsx all_hyperlinks existing_pdfs missing_pdfs destination_folder
  = Some sheet →
  ∃ (doc_number_dict renamed_files : gmap string string)
    (rows : list sheet_row),
    sheet = header_row :: rows
    ∧ Forall2 (λ item row,
                 save_links_row destination_folder
                   (status_dict "Found" existing_pdfs)
                   (status_dict "Missing" missing_pdfs)
                   doc_number_dict renamed_files item = Some row)
              all_hyperlinks rows
    ∧ (∀ url, doc_number_dict !! url
              = if decide (url ∈ existing_pdfs.*2)
                then numbered_label
                     <$> process_pdfs_unique_filenames existing_pdfs
                         !! basename url
                else None)
    ∧ (∀ url, renamed_files !! url
              = if decide (url ∈ existing_pdfs.*2)
                then (λ k, renamed k (basename url))
                     <$> process_pdfs_unique_filenames existing_pdfs
                         !! basename url
                else None).
Proof.
  destruct (save_links_to_xlsx_rows all_hyperlinks existing_pdfs missing_pdfs
              destination_folder) as (d & r & -> & Hd & Hr).
  intros Hsheet. exists d, r.
  destruct (mapM _ all_hyperlinks) as [rows|] eqn:Hrows; [|done].
  injection Hsheet as <-. exists rows.
  split; [done|]. split; [by apply mapM_Some|]. done.
Qed.


End ReportFacts.

Example scenario_partition :
  Scenario.resolved = [("Annex A", "a.pdf"); ("Annex A, again", "a.pdf")]
  ∧ Scenario.unresolved = [("Annex B", "b.pdf")].
Proof. vm_compute. done. Qed.

Section ReportTheorems.
Context `{Platform}.


Lemma check_pdfs_covers (files : gmap string file) (central : string)
    (hyperlinks : list hyperlink) (item : hyperlink) :
  item ∈ hyperlinks →
  item ∈ (check_pdfs files central hyperlinks).1
  ∨ item ∈ (check_pdfs files central hyperlinks).2.
Proof.
  unfold check_pdfs. rewrite check_pdfs_fold. simpl.
  rewrite !list_elem_of_filter. intros Hin.
  destruct (decide (found files central item)); tauto.
Qed.


(** C10. When every hyperlink of the full list is in the existing or in
    the missing sequence, as it is for the partition made by the
    existence check, every row of a sheet that [save_links_to_xlsx]
    writes has the status "Found" or "Missing": the default "Unknown" is
    not reached. *)
Theorem report_status_found_or_missing
    (all_hyperlinks existing_pdfs missing_pdfs : list hyperlink)
    (destination_folder : string) (sheet : list sheet_row) :
  (∀ item, item ∈ all_hyperlinks → item ∈ existing_pdfs ∨ item ∈ missing_pdfs) →
  save_links_to_xlsx all_hyperlinks existing_pdfs missing_pdfs destination_folder
  = Some sheet →
  ∃ rows : list sheet_row,
    sheet = header_row :: rows
    ∧ length rows = length all_hyperlinks
    ∧ ∀ row, row ∈ rows →
        (status_cell row = "Found" ∨ status_cell row = "Missing")
        ∧ status_cell row ≠ "Unknown".
Proof.
  intros Hcover Hsheet.
  apply save_links_to_xlsx_Some in Hsheet as (d & r & rows & -> & Hrows & Hd & _).
  exists rows. split; [done|].
  split; [symmetry; by eapply Forall2_length|].
  intros row Hrow.
  apply list_elem_of_lookup in Hrow as [i Hrow].
  destruct (Forall2_lookup_r _ _ _ _ _ Hrows Hrow)
    as ([text url] & Hitem & Hcells).
  apply list_elem_of_lookup_2 in Hitem.
  rewrite (save_links_row_cells _ _ _ _ _ _ _ Hd) in Hcells.
  destruct (Openpyxl.check_string text) as [cell_1|]; [|done].
  destruct (Openpyxl.check_string (basename url)) as [cell_2|]; [|done].
  cbn [mbind option_bind] in Hcells. injection Hcells as <-.
  cbn [status_cell].
  destruct (decide (url ∈ existing_pdfs.*2)) as [|Hne]; [by split; [left|]|].
  destruct (decide (url ∈ missing_pdfs.*2)) as [|Hnm]; [by split; [right|]|].
  exfalso. destruct (Hcover _ Hitem) as [Hin'|Hin'].
  - apply Hne, list_elem_of_fmap. by exists (text, url).
  - apply Hnm, list_elem_of_fmap. by exists (text, url).
Qed.

End ReportTheorems.

(** The report of Scenario A is written: three rows after the header. *)
Example scenario_report :
  @save_links_to_xlsx Posix.platform Scenario.links Scenario.resolved
    Scenario.unresolved Scenario.destination
  = Some
      [ header_row;
        {| link_text_cell := "Annex A"; pdf_link_cell := "a.pdf";
           document_number_cell := "المستند رقم 001"; status_cell := "Found";
           pdf_link_hyperlink := Some "file:////out/المستند رقم 001 - a.pdf" |};
        {| link_text_cell := "Annex B"; pdf_link_cell := "b.pdf";
           document_number_cell := ""; status_cell := "Missing";
           pdf_link_hyperlink := None |};
        {| link_text_cell := "Annex A, again"; pdf_link_cell := "a.pdf";
           document_number_cell := "المستند رقم 001"; status_cell := "Found";
           pdf_link_hyperlink := Some "file:////out/المستند رقم 001 - a.pdf" |} ].
Proof. vm_compute. done. Qed.


(** The precondition holds in Scenario A, whose report is written, and
    with it the conclusion. *)
Lemma report_status_found_or_missing_witness :
  ∃ sheet : list sheet_row,
    (∀ item, item ∈ Scenario.links →
       item ∈ Scenario.resolved ∨ item ∈ Scenario.unresolved)
    ∧ @save_links_to_xlsx Posix.platform Scenario.links Scenario.resolved
        Scenario.unresolved Scenario.destination
      = Some sheet
    ∧ ∃ rows : list sheet_row,
        sheet = header_row :: rows
        ∧ length rows = length Scenario.links
        ∧ ∀ row, row ∈ rows →
            (status_cell row = "Found" ∨ status_cell row = "Missing")
            ∧ status_cell row ≠ "Unknown".
Proof.
  assert (∀ item, item ∈ Scenario.links →
            item ∈ Scenario.resolved ∨ item ∈ Scenario.unresolved) as Hcover.
  { apply Forall_forall. apply (bool_decide_unpack _). by vm_compute. }
  eexists. split; [exact Hcover|].
  assert (@save_links_to_xlsx Posix.platform Scenario.links Scenario.resolved
            Scenario.unresolved Scenario.destination = Some _) as Hsheet
    by (vm_compute; reflexivity).
  split; [exact Hsheet|].
  exact (@report_status_found_or_missing Posix.platform _ _ _ _ _ Hcover Hsheet).
Defined.

(** ** The cover page *)

(** C2, as the code has it.  The buffer that [create_cover_page] returns
    holds a single page with one centred text.  The text is built from
    the document number in plain decimal, without padding: it is the
    label, a space and the number when the shaping packages are absent
    and Times-Roman draws it; the reshaped and reordered form of that
    string when the packages are present and the Arabic font draws it;
    and the number alone, in Helvetica-Bold, in every other case.  The
    unshaped labelled text contains the label and the number. *)
Theorem cover_page_text (h : host) (doc_number : nat)
    (link_text pdf_filename : string) :
  let number := Str.of_nat doc_number in
  let labelled := document_number_label +:+ " " +:+ number in
  ∃ font size shown,
    create_cover_page h doc_number link_text pdf_filename
    = [CoverPage font size shown]
    ∧ Str.contains labelled document_number_label = true
    ∧ Str.contains labelled number = true
    ∧ match ARABIC_SUPPORT h, reshape_display h labelled with
      | true, Some shaped =>
          if can_draw h "Arabic" shaped
          then font = "Arabic" ∧ shown = shaped
          else font = "Helvetica-Bold" ∧ shown = number
      | true, None => font = "Helvetica-Bold" ∧ shown = number
      | false, _ =>
          if can_draw h "Times-Roman" labelled
          then font = "Times-Roman" ∧ shown = labelled
          else font = "Helvetica-Bold" ∧ shown = number
      end.
Proof.
  intros number labelled. unfold create_cover_page. fold number labelled.
  assert (Str.contains labelled document_number_label = true) as Hl
    by apply contains_append_l.
  assert (Str.contains labelled number = true) as Hn.
  { unfold labelled. rewrite <- append_assoc. apply contains_append_r. }
  destruct (ARABIC_SUPPORT h).
  - destruct (reshape_display h labelled) as [shaped|].
    + destruct (can_draw h "Arabic" shaped); by eexists _, _, _.
    + by eexists _, _, _.
  - destruct (reshape_display h labelled);
      destruct (can_draw h "Times-Roman" labelled); by eexists _, _, _.
Qed.

(** The claim of C2 as the specification words it fails: on a host
    without the shaping packages the cover of document 1 shows the
    number as "1", and its text does not contain "001"; and on a host
    where the labelled text cannot be drawn, the cover shows the number
    alone, without the label. *)
Lemma cover_page_not_padded :
  let plain := Scenario.plain_host in
  let no_arabic_glyphs := {|
    ARABIC_SUPPORT := false;
    reshape_display := λ _, None;
    can_draw := λ _ _, false;
    kind_of := λ _, Writable;
    can_makedirs := λ _, true |} in
  (∃ shown,
     create_cover_page plain 1 "Annex A" "a.pdf" = [CoverPage "Times-Roman" 24 shown]
     ∧ Str.contains shown (Str.format_03d 1) = false)
  ∧ (∃ shown,
       create_cover_page no_arabic_glyphs 1 "Annex A" "a.pdf"
       = [CoverPage "Helvetica-Bold" 36 shown]
       ∧ Str.contains shown document_number_label = false
       ∧ Str.contains shown (Str.format_03d 1) = false).
Proof. split; eexists; vm_compute; done. Qed.

(** ** The PDF transformer *)

Lemma add_pages_fold (pages : list page) :
  ∀ pdf_writer,
    foldl (λ pdf_writer page, pdf_writer ++ [page]) pdf_writer pages
    = pdf_writer ++ pages.
Proof.
  induction pages as [|p pages IH]; intros pdf_writer; simpl.
  - by rewrite app_nil_r.
  - by rewrite IH, <- app_assoc.
Qed.

Lemma create_cover_page_single (h : host) (doc_number : nat)
    (link_text pdf_filename : string) :
  ∃ cover, create_cover_page h doc_number link_text pdf_filename = [cover].
Proof.
  unfold create_cover_page.
  destruct (ARABIC_SUPPORT h);
    [destruct (reshape_display h _) as [shaped|];
       [destruct (can_draw h "Arabic" shaped)|]
    |destruct (can_draw h "Times-Roman" _)];
    by eexists.
Qed.

(** [shutil.copy] writes to its second argument when that can be opened
    for writing, which a directory cannot. *)
Lemma copy_target_writable `{Platform} (h : host) (src dst : string) :
  can_write h dst = true → copy_target h src dst = dst.
Proof. unfold copy_target, can_write, is_dir. by destruct (kind_of h dst). Qed.

Section TransformerFacts.
Context `{Platform}.
Variable h : host.
Variable o : options.
Variables central destination : string.

(** With the cover page enabled and a readable source, the
    transformation writes the cover followed by the pages of the source,
    or it raises because the destination cannot be opened for writing
    and leaves the world as it was. *)
Lemma transform_pdf_cover (doc_number : nat) (link_text pdf_filename : string)
    (source_path dest_path : string) (pages : list page) (cover : page)
    (w : world) :
  add_cover_page o = true →
  create_cover_page h doc_number link_text pdf_filename = [cover] →
  files w !! source_path = Some (PdfFile pages) →
  transform_pdf h o doc_number link_text pdf_filename source_path dest_path w
  = if can_write h dest_path
    then (Ok tt, {| files := <[dest_path := PdfFile (cover :: pages)]> (files w);
                    trace := trace w
                             ++ [EvWrite dest_path (PdfFile (cover :: pages))] |})
    else (Raise (if is_dir h dest_path then IsADirectoryError
                 else PermissionError), w).
Proof.
  intros Hcover Hpage Hsrc. unfold transform_pdf. rewrite Hcover, Hpage.
  unfold Eff.bind, pages_index, PdfReader, write_pdf, write_file, Eff.ret.
  simpl. rewrite Hsrc, add_pages_fold. done.
Qed.

(** The body of the loop never raises for an item that has a number:
    it announces the item and transforms it, or, when the transformation
    raises, logs the error and runs the fallback copy, whose outcome is
    dropped. *)
Lemma process_pdf_step (unique_filenames : gmap string nat)
    (total_files processed_count : nat) (link_text pdf_filename : string)
    (doc_number : nat) (w : world) :
  let filename := basename pdf_filename in
  let source_path := join central filename in
  let new_name := process_pdfs_new_name o doc_number filename in
  let dest_path := join destination new_name in
  unique_filenames !! filename = Some doc_number →
  process_pdf h o central destination unique_filenames total_files
    processed_count (link_text, pdf_filename) w
  = (Ok (processed_count + 1),
     match transform_pdf h o doc_number link_text pdf_filename source_path
             dest_path (announced total_files (processed_count + 1) new_name w)
     with
     | (Ok _, w1) => w1
     | (Raise e, w1) =>
         (shutil_copy h source_path dest_path (logged source_path e w1)).2
     end).
Proof.
  intros filename source_path new_name dest_path Hnum.
  unfold process_pdf. cbv zeta. fold filename. unfold dict_index. rewrite Hnum.
  unfold Eff.bind at 1. unfold Eff.ret at 1. cbv beta iota.
  fold source_path new_name. fold dest_path.
  unfold Eff.bind at 1. unfold Eff.emit at 1. cbv beta iota.
  fold (announced total_files (processed_count + 1) new_name w).
  unfold Eff.bind at 1. unfold Eff.try_except at 1.
  destruct (transform_pdf _ _ _ _ _ _ _ _) as [[[]|e] w1]; [done|].
  unfold Eff.bind at 1. unfold Eff.emit at 1. cbv beta iota.
  fold (logged source_path e w1).
  unfold Eff.try_except, Eff.ret.
  by destruct (shutil_copy _ _ _ _) as [[[]|e'] w2].
Qed.

(** What [shutil.copy] does to a world in which the source exists. *)
Lemma shutil_copy_existing (src dst : string) (f : file) (w : world) :
  files w !! src = Some f →
  shutil_copy h src dst w
  = let target := copy_target h src dst in
    let w1 := {| files := files w; trace := trace w ++ [EvCopy src dst] |} in
    if String.eqb src target then (Raise SameFileError, w1)
    else if can_write h target
         then (Ok tt, {| files := <[target := f]> (files w);
                         trace := (trace w ++ [EvCopy src dst])
                                  ++ [EvWrite target f] |})
         else (Raise (if is_dir h target then IsADirectoryError
                      else PermissionError), w1).
Proof.
  intros Hsrc. unfold shutil_copy, Eff.bind, Eff.emit, write_file.
  cbn [files trace]. rewrite Hsrc. cbv zeta.
  destruct (String.eqb src _); [done|]. by destruct (can_write h _).
Qed.

(** C7, with the condition under which the transformed file is written.
    For a resolved hyperlink whose source PDF is readable, with the
    cover-page option enabled, the item is processed without raising.
    Where the destination path can be opened for writing, the item is
    announced and one file is written, at the destination: a PDF whose
    page count is the source's plus 1, whose page at index 0 is the
    generated cover and whose other pages are the source's in their
    order.  Where it cannot, no file with a cover is written: the only
    write that can happen is the fallback copy of the unchanged source
    into the directory that stands at the destination path. *)
Theorem cover_page_prepended (unique_filenames : gmap string nat)
    (total_files processed_count : nat) (link_text pdf_filename : string)
    (doc_number : nat) (pages : list page) (w : world) :
  let filename := basename pdf_filename in
  let source_path := join central filename in
  let new_name := process_pdfs_new_name o doc_number filename in
  let dest_path := join destination new_name in
  add_cover_page o = true →
  unique_filenames !! filename = Some doc_number →
  files w !! source_path = Some (PdfFile pages) →
  ∃ cover w' events,
    create_cover_page h doc_number link_text pdf_filename = [cover]
    ∧ process_pdf h o central destination unique_filenames total_files
        processed_count (link_text, pdf_filename) w
      = (Ok (processed_count + 1), w')
    ∧ trace w' = trace w ++ events
    ∧ if can_write h dest_path then
        ∃ out,
          events = [EvStatus (processed_count + 1) total_files new_name;
                    EvWrite dest_path (PdfFile out)]
          ∧ files w' = <[dest_path := PdfFile out]> (files w)
          ∧ length out = length pages + 1
          ∧ out !! 0 = Some cover
          ∧ drop 1 out = pages
      else
        ∀ path f, EvWrite path f ∈ events →
          is_dir h dest_path = true
          ∧ path = join dest_path (basename source_path)
          ∧ f = PdfFile pages.
Proof.
  intros filename source_path new_name dest_path Hcover Hnum Hsrc.
  destruct (create_cover_page_single h doc_number link_text pdf_filename)
    as [cover Hpage].
  exists cover.
  rewrite (process_pdf_step unique_filenames total_files processed_count
             link_text pdf_filename doc_number w Hnum).
  fold filename source_path new_name dest_path.
  rewrite (transform_pdf_cover doc_number link_text pdf_filename
             source_path dest_path pages cover _ Hcover Hpage) by exact Hsrc.
  clearbody source_path dest_path new_name.
  destruct (can_write h dest_path) eqn:Hwrite.
  - eexists _, _. split; [done|]. split; [reflexivity|].
    cbn [trace files announced].
    split; [by rewrite <- app_assoc|].
    exists (cover :: pages).
    split; [done|]. split; [done|]. split; [simpl; lia|]. split; [done|].
    by destruct pages.
  - rewrite (shutil_copy_existing source_path dest_path (PdfFile pages))
      by exact Hsrc.
    cbv zeta. unfold copy_target. cbn [files trace logged announced].
    destruct (is_dir h dest_path) eqn:Hdir.
    + set (target := join dest_path (basename source_path)).
      destruct (String.eqb source_path target);
        [|destruct (can_write h target)].
      all: eexists _, _; split; [done|]; split; [reflexivity|].
      all: cbn [trace]; split; [by rewrite <- !app_assoc|].
      all: intros path f Hin; cbn [app] in Hin.
      all: repeat (apply elem_of_cons in Hin as [Hev|Hin];
                   try discriminate Hev).
      all: try by apply elem_of_nil in Hin.
      by injection Hev as -> ->.
    + rewrite Hwrite.
      destruct (String.eqb source_path dest_path).
      all: eexists _, _; split; [done|]; split; [reflexivity|].
      all: cbn [trace]; split; [by rewrite <- !app_assoc|].
      all: intros path f Hin; cbn [app] in Hin.
      all: repeat (apply elem_of_cons in Hin as [[=]|Hin]).
      all: by apply elem_of_nil in Hin.
Qed.

(** The loop over the items, from any count and world. *)
Lemma process_pdf_loop (unique_filenames : gmap string nat) (total_files : nat)
    (items : list hyperlink) :
  (∀ item : hyperlink, item ∈ items →
     is_Some (unique_filenames !! basename item.2)) →
  ∀ (processed_count : nat) (w : world),
    ∃ w',
      Eff.for_each
        (process_pdf h o central destination unique_filenames total_files)
        processed_count items w
      = (Ok (processed_count + length items), w')
      ∧ batch h o central destination unique_filenames total_files
          processed_count items w w'.
Proof.
  induction items as [|[link_text pdf_filename] rest IH];
    intros Hnum processed_count w.
  - exists w. split; [|constructor].
    simpl. unfold Eff.ret. do 2 f_equal. lia.
  - destruct (Hnum (link_text, pdf_filename)) as [doc_number Hk]; [by left|].
    cbn [snd] in Hk.
    cbn [Eff.for_each]. unfold Eff.bind at 1.
    rewrite (process_pdf_step _ _ _ _ _ doc_number) by exact Hk.
    set (w1 := match transform_pdf _ _ _ _ _ _ _ _ with
               | (Ok _, w1) => w1
               | (Raise e, w1) => _
               end).
    destruct (IH (λ item Hin, Hnum item (list_elem_of_further _ _ _ Hin))
                (processed_count + 1) w1) as (w' & Hrun & Hbatch).
    exists w'. split.
    + rewrite Hrun. do 2 f_equal. simpl. lia.
    + subst w1.
      destruct (transform_pdf _ _ _ _ _ _ _ _) as [[[]|e] w1] eqn:Htr.
      * eapply batch_transformed; eauto.
      * destruct (shutil_copy h _ _ (logged _ e w1)) as [copied w2] eqn:Hcopy.
        eapply batch_fallback; eauto.
Qed.

(** What the primitives add to the trace holds no announcement. *)
Lemma shutil_copy_trace (src dst : string) (w w' : world) (r : outcome unit) :
  shutil_copy h src dst w = (r, w') →
  ∃ events, trace w' = trace w ++ events
            ∧ filter (λ ev, is_status ev) events = [].
Proof.
  unfold shutil_copy, Eff.bind, Eff.emit, write_file. cbn [files trace].
  generalize (copy_target h src dst). intros target.
  destruct (files w !! src) as [f|]; [destruct (String.eqb src target)|];
    [|destruct (can_write h target)|]; intros [= <- <-]; cbn [trace].
  1,3,4: by exists [EvCopy src dst].
  exists [EvCopy src dst; EvWrite target f]. by rewrite <- app_assoc.
Qed.

Lemma transform_pdf_trace (doc_number : nat) (link_text pdf_filename : string)
    (source_path dest_path : string) (w w' : world) (r : outcome unit) :
  transform_pdf h o doc_number link_text pdf_filename source_path dest_path w
  = (r, w') →
  ∃ events, trace w' = trace w ++ events
            ∧ filter (λ ev, is_status ev) events = [].
Proof.
  unfold transform_pdf. destruct (add_cover_page o); [|apply shutil_copy_trace].
  destruct (create_cover_page_single h doc_number link_text pdf_filename)
    as [cover ->].
  unfold Eff.bind, pages_index, PdfReader, write_pdf, write_file, Eff.ret.
  cbn [lookup list_lookup].
  destruct (files w !! source_path) as [[pages|raw]|];
    [destruct (can_write h dest_path)| |]; intros [= <- <-]; cbn [trace].
  1: by eexists [_].
  all: exists []; by rewrite app_nil_r.
Qed.

(** A batch announces each of its items once. *)
Lemma batch_announces (unique_filenames : gmap string nat) (total_files : nat)
    (processed_count : nat) (items : list hyperlink) (w w' : world) :
  batch h o central destination unique_filenames total_files
    processed_count items w w' →
  ∃ events, trace w' = trace w ++ events
            ∧ length (filter (λ ev, is_status ev) events) = length items.
Proof.
  induction 1 as [n w
                 |n text url rest k w w1 w' filename src new_name dst Hk Htr _ IH
                 |n text url rest k e copied w w1 w2 w' filename src new_name dst
                    Hk Htr Hcopy _ IH].
  - exists []. by rewrite app_nil_r.
  - destruct IH as (evs & Hevs & Hlen).
    apply transform_pdf_trace in Htr as (tevs & Htevs & Hnone).
    exists (EvStatus (n + 1) total_files new_name :: tevs ++ evs).
    split.
    + rewrite Hevs, Htevs. cbn [announced trace]. by rewrite <- !app_assoc.
    + rewrite filter_cons_True by done. rewrite filter_app, Hnone. simpl.
      by rewrite Hlen.
  - destruct IH as (evs & Hevs & Hlen).
    apply transform_pdf_trace in Htr as (tevs & Htevs & Hnone).
    apply shutil_copy_trace in Hcopy as (cevs & Hcevs & Hcnone).
    exists (EvStatus (n + 1) total_files new_name
            :: tevs ++ EvLogError src e :: cevs ++ evs).
    split.
    + rewrite Hevs, Hcevs. cbn [logged trace]. rewrite Htevs.
      cbn [announced trace]. by rewrite <- !app_assoc.
    + rewrite filter_cons_True by done. rewrite filter_app, Hnone.
      rewrite filter_cons_False by (simpl; tauto).
      rewrite filter_app, Hcnone. simpl. by rewrite Hlen.
Qed.

(** C8. Where the destination folder can be made, [process_pdfs]
    returns without raising, whatever happens to the single items, and
    the world it leaves is that of a batch over all the resolved items
    in order: each item is announced and then either transformed or,
    its transformation having failed, logged and handed to the fallback
    copy of its source to its destination path, after which, copy done
    or not, the next item is taken; the trace of the run holds one
    announcement per resolved item. *)
Theorem process_pdfs_finishes_batch (existing_pdfs : list hyperlink) (w : world) :
  can_makedirs h destination = true →
  ∃ w',
    process_pdfs h o existing_pdfs central destination w = (Ok tt, w')
    ∧ batch h o central destination
        (process_pdfs_unique_filenames existing_pdfs) (length existing_pdfs)
        0 existing_pdfs w w'
    ∧ ∃ events,
        trace w' = trace w ++ events
        ∧ length (filter (λ ev, is_status ev) events) = length existing_pdfs.
Proof.
  intros Hdir. unfold process_pdfs, makedirs. rewrite Hdir.
  destruct (process_pdf_loop (process_pdfs_unique_filenames existing_pdfs)
              (length existing_pdfs) existing_pdfs
              (process_pdfs_unique_filenames_total existing_pdfs) 0 w)
    as (w' & Hrun & Hbatch).
  exists w'. split; [|split; [done|by eapply batch_announces]].
  unfold Eff.bind, Eff.ret. cbv zeta. by rewrite Hrun.
Qed.

End TransformerFacts.

(** The first item of Scenario A, renamed and with a cover page, on a
    host where every path can be written. *)
Lemma cover_page_prepended_witness :
  let o := {| enable_renaming := true; add_cover_page := true |} in
  let numbers := @process_pdfs_unique_filenames Posix.platform Scenario.resolved in
  add_cover_page o = true
  ∧ numbers !! "a.pdf" = Some 1
  ∧ files Scenario.start !! "/central/a.pdf"
    = Some (PdfFile [BodyPage "a1"; BodyPage "a2"])
  ∧ ∃ cover w' events,
      create_cover_page Scenario.plain_host 1 "Annex A" "a.pdf" = [cover]
      ∧ @process_pdf Posix.platform Scenario.plain_host o Scenario.central
          Scenario.destination numbers 2 0 ("Annex A", "a.pdf") Scenario.start
        = (Ok 1, w')
      ∧ trace w' = trace Scenario.start ++ events
      ∧ ∃ out,
          events = [EvStatus 1 2 "المستند رقم 001 - a.pdf";
                    EvWrite "/out/المستند رقم 001 - a.pdf" (PdfFile out)]
          ∧ files w'
            = <["/out/المستند رقم 001 - a.pdf" := PdfFile out]>
                (files Scenario.start)
          ∧ length out = 2 + 1
          ∧ out !! 0 = Some cover
          ∧ drop 1 out = [BodyPage "a1"; BodyPage "a2"].
Proof.
  intros o numbers.
  assert (add_cover_page o = true) as Hcover by reflexivity.
  assert (numbers !! "a.pdf" = Some 1) as Hnum by (vm_compute; reflexivity).
  assert (files Scenario.start !! "/central/a.pdf"
          = Some (PdfFile [BodyPage "a1"; BodyPage "a2"])) as Hsrc
    by (vm_compute; reflexivity).
  split; [exact Hcover|]. split; [exact Hnum|]. split; [exact Hsrc|].
  exact (@cover_page_prepended Posix.platform Scenario.plain_host o
           Scenario.central Scenario.destination numbers 2 0
           "Annex A" "a.pdf" 1 [BodyPage "a1"; BodyPage "a2"] Scenario.start
           Hcover Hnum Hsrc).
Defined.

(** C7, the claim as the specification words it, refuted: the source is
    a readable PDF of two pages and the cover-page option is on, but a
    directory stands at the destination path.  Opening it for writing
    raises, the error is logged, and the fallback [shutil.copy] puts the
    source, as it is, into that directory: the one file the item writes
    has the two pages of the source and no cover. *)
Lemma cover_page_lost_to_directory :
  let o := {| enable_renaming := false; add_cover_page := true |} in
  let h := {|
    ARABIC_SUPPORT := false;
    reshape_display := λ _, None;
    can_draw := λ _ _, true;
    kind_of := λ path,
      if String.eqb path "/out/a.pdf" then IsDirectory else Writable;
    can_makedirs := λ _, true |} in
  let numbers :=
    @process_pdfs_unique_filenames Posix.platform [("Annex A", "a.pdf")] in
  let run :=
    @process_pdf Posix.platform h o "/central" "/out" numbers 1 0
      ("Annex A", "a.pdf") Scenario.start in
  files Scenario.start !! "/central/a.pdf"
  = Some (PdfFile [BodyPage "a1"; BodyPage "a2"])
  ∧ run.1 = Ok 1
  ∧ trace run.2
    = [ EvStatus 1 1 "a.pdf";
        EvLogError "/central/a.pdf" IsADirectoryError;
        EvCopy "/central/a.pdf" "/out/a.pdf";
        EvWrite "/out/a.pdf/a.pdf" (PdfFile [BodyPage "a1"; BodyPage "a2"]) ].
Proof. vm_compute. done. Qed.

(** The resolved items of Scenario A as a batch. *)
Lemma process_pdfs_finishes_batch_witness :
  let o := {| enable_renaming := true; add_cover_page := true |} in
  can_makedirs Scenario.plain_host Scenario.destination = true
  ∧ ∃ w',
      @process_pdfs Posix.platform Scenario.plain_host o Scenario.resolved
        Scenario.central Scenario.destination Scenario.start
      = (Ok tt, w')
      ∧ @batch Posix.platform Scenario.plain_host o Scenario.central
          Scenario.destination
          (@process_pdfs_unique_filenames Posix.platform Scenario.resolved)
          (length Scenario.resolved) 0 Scenario.resolved Scenario.start w'
      ∧ ∃ events,
          trace w' = trace Scenario.start ++ events
          ∧ length (filter (λ ev, is_status ev) events)
            = length Scenario.resolved.
Proof.
  intros o.
  assert (can_makedirs Scenario.plain_host Scenario.destination = true) as Hdir
    by reflexivity.
  split; [exact Hdir|].
  exact (@process_pdfs_finishes_batch Posix.platform Scenario.plain_host o
           Scenario.central Scenario.destination Scenario.resolved
           Scenario.start Hdir).
Defined.

(** Scenario D of the specification: of two resolved PDFs the first is
    not readable as a PDF.  Its failure is logged, it is copied as it
    is, and the second still gets its cover page. *)
Example corrupt_item_falls_back :
  let o := {| enable_renaming := false; add_cover_page := true |} in
  let w := {|
    files := {[ "/central/a.pdf" := OtherFile "not a pdf";
                "/central/b.pdf" := PdfFile [BodyPage "b1"] ]};
    trace := [] |} in
  let run :=
    @process_pdfs Posix.platform Scenario.plain_host o
      [("A", "a.pdf"); ("B", "b.pdf")] "/central" "/out" w in
  run.1 = Ok tt
  ∧ trace run.2
    = [ EvStatus 1 2 "a.pdf";
        EvLogError "/central/a.pdf" PdfReadError;
        EvCopy "/central/a.pdf" "/out/a.pdf";
        EvWrite "/out/a.pdf" (OtherFile "not a pdf");
        EvStatus 2 2 "b.pdf";
        EvWrite "/out/b.pdf"
          (PdfFile [CoverPage "Times-Roman" 24 "المستند رقم 2"; BodyPage "b1"]) ].
Proof. vm_compute. done. Qed.

(** ** The names in the report and the names on disk *)

Lemma length_append (a b : string) :
  String.length (a +:+ b) = String.length a + String.length b.
Proof.
  induction a as [|c a IH]; [done|]. rewrite append_cons. simpl. by rewrite IH.
Qed.

Lemma renamed_differs (doc_number : nat) (filename : string) :
  renamed doc_number filename ≠ filename.
Proof.
  intros Heq. apply (f_equal String.length) in Heq.
  unfold renamed in Heq. rewrite !length_append in Heq.
  simpl in Heq. lia.
Qed.

Section NamesFacts.
Context `{Platform}.
Variable o : options.

(** For every resolved hyperlink the report links to the name with the
    number prefix, whatever the renaming toggle says: with renaming
    enabled that is the name [process_pdfs] writes, with renaming
    disabled it is not. *)
Lemma report_links_to_renamed
    (all_hyperlinks existing_pdfs missing_pdfs : list hyperlink)
    (destination_folder : string) :
  ∃ doc_number_dict renamed_files : gmap string string,
    save_links_to_xlsx all_hyperlinks existing_pdfs missing_pdfs destination_folder
    = (rows ← mapM (save_links_row destination_folder
                      (status_dict "Found" existing_pdfs)
                      (status_dict "Missing" missing_pdfs)
                      doc_number_dict renamed_files) all_hyperlinks;
       Some (header_row :: rows))
    ∧ ∀ item : hyperlink, item ∈ existing_pdfs →
        ∃ doc_number,
          process_pdfs_unique_filenames existing_pdfs !! basename item.2
          = Some doc_number
          ∧ save_links_new_filename renamed_files item.2
            = renamed doc_number (basename item.2)
          ∧ (enable_renaming o = true →
             save_links_new_filename renamed_files item.2
             = process_pdfs_new_name o doc_number (basename item.2))
          ∧ (enable_renaming o = false →
             save_links_new_filename renamed_files item.2
             ≠ process_pdfs_new_name o doc_number (basename item.2)).
Proof.
  destruct (save_links_to_xlsx_rows all_hyperlinks existing_pdfs missing_pdfs
              destination_folder) as (d & r & Hrows & _ & Hr).
  exists d, r. split; [exact Hrows|].
  intros item Hin.
  destruct (process_pdfs_unique_filenames_total existing_pdfs item Hin)
    as [k Hk].
  assert (save_links_new_filename r item.2 = renamed k (basename item.2)) as Hname.
  { unfold save_links_new_filename. rewrite Hr, Hk.
    rewrite decide_True; [done|]. apply list_elem_of_fmap. by exists item. }
  exists k. split; [done|]. split; [done|].
  unfold process_pdfs_new_name. split; intros ->; [done|].
  rewrite Hname. apply renamed_differs.
Qed.

End NamesFacts.

(** C1 fails with renaming disabled.  For one resolved link to [a.pdf],
    [process_pdfs] writes [/out/a.pdf] and nothing under the numbered
    name, and the row of the report links to the numbered name. *)
Theorem report_link_without_renaming :
  let o := {| enable_renaming := false; add_cover_page := true |} in
  let existing_pdfs := [("Annex A", "a.pdf")] in
  let after :=
    (@process_pdfs Posix.platform Scenario.plain_host o existing_pdfs
       Scenario.central Scenario.destination Scenario.start).2 in
  filter (λ ev, negb (is_status ev)) (trace after)
  = [ EvWrite "/out/a.pdf"
        (PdfFile [CoverPage "Times-Roman" 24 "المستند رقم 1";
                  BodyPage "a1"; BodyPage "a2"]) ]
  ∧ files after !! "/out/المستند رقم 001 - a.pdf" = None
  ∧ @save_links_to_xlsx Posix.platform existing_pdfs existing_pdfs []
      Scenario.destination
    = Some [ header_row;
             {| link_text_cell := "Annex A";
                pdf_link_cell := "a.pdf";
                document_number_cell := "المستند رقم 001";
                status_cell := "Found";
                pdf_link_hyperlink :=
                  Some "file:////out/المستند رقم 001 - a.pdf" |} ].
Proof. vm_compute. done. Qed.

(** * Further properties of the code *)

Open Scope nat_scope.

(** ** The numbering loop *)

Section NumberingMore.
Context `{Platform}.

Lemma process_pdfs_assign_serial (st : numbering) (item : hyperlink) :
  serial st →
  serial (process_pdfs_assign st item)
  ∧ (size st.1 ≤ size (process_pdfs_assign st item).1 ≤ S (size st.1))%nat.
Proof.
  destruct st as [m c], item as [text url]. unfold serial. simpl.
  intros (-> & Hrange & Hall).
  destruct (m !! basename url) eqn:Hlook; simpl; [split; [done|lia]|].
  rewrite map_size_insert_None by done.
  split; [|lia]. split; [lia|]. split.
  - intros n k. rewrite lookup_insert_Some.
    intros [[_ <-]|[_ Hk]]; [lia|]. apply Hrange in Hk. lia.
  - intros k Hk. destruct (decide (k = S (size m))) as [->|Hne].
    + exists (basename url). apply lookup_insert_eq.
    + destruct (Hall k) as [n Hn]; [lia|]. exists n.
      rewrite lookup_insert_ne; [done|]. intros <-. congruence.
Qed.

Lemma process_pdfs_assign_fold_serial (links : list hyperlink) :
  ∀ st, serial st →
    serial (foldl process_pdfs_assign st links)
    ∧ (size (foldl process_pdfs_assign st links).1 ≤ size st.1 + length links)%nat.
Proof.
  induction links as [|item rest IH]; intros st Hst; simpl; [split; [done|lia]|].
  destruct (process_pdfs_assign_serial st item Hst) as [Hstep Hsize].
  destruct (IH _ Hstep) as [Hfinal Hbound]. split; [done|]. lia.
Qed.

(** X1. The document numbers of [process_pdfs] are serial: when the
    numbering loop ends its counter is one more than the number of
    basenames in [unique_filenames], every number it assigned lies
    between 1 and that count, every number between 1 and that count is
    assigned to a basename, and the count is at most the number of
    resolved hyperlinks. *)
Theorem document_numbers_serial (existing_pdfs : list hyperlink) :
  let m := process_pdfs_unique_filenames existing_pdfs in
  (foldl process_pdfs_assign (∅, 1) existing_pdfs).2 = S (size m)
  ∧ (size m ≤ length existing_pdfs)%nat
  ∧ (∀ (n : string) (k : nat), m !! n = Some k → (1 ≤ k ≤ size m)%nat)
  ∧ (∀ k : nat, (1 ≤ k ≤ size m)%nat → ∃ n : string, m !! n = Some k).
Proof.
  intros m.
  assert (serial ((∅, 1) : numbering)) as Hinit.
  { unfold serial. simpl. rewrite map_size_empty. split; [done|].
    split; [intros n k; by rewrite lookup_empty|intros k; lia]. }
  destruct (process_pdfs_assign_fold_serial existing_pdfs _ Hinit)
    as [(Hc & Hrange & Hall) Hbound].
  simpl in Hbound. rewrite map_size_empty in Hbound.
  split; [exact Hc|]. split; [exact Hbound|]. split; [exact Hrange|exact Hall].
Qed.

(** X2. Hyperlinks that come later never change a number given
    earlier: the number a basename has after a sequence of resolved
    hyperlinks is the number it has after any longer sequence that
    starts with it. *)
Theorem document_numbers_stable (existing_pdfs more : list hyperlink)
    (n : string) (k : nat) :
  process_pdfs_unique_filenames existing_pdfs !! n = Some k →
  process_pdfs_unique_filenames (existing_pdfs ++ more) !! n = Some k.
Proof.
  unfold process_pdfs_unique_filenames. rewrite foldl_app.
  destruct (foldl process_pdfs_assign (∅, 1) existing_pdfs) as [m c].
  simpl. intros Hk. apply process_pdfs_assign_spec. by left.
Qed.

End NumberingMore.

Lemma document_numbers_stable_witness :
  @process_pdfs_unique_filenames Posix.platform Scenario.resolved !! "a.pdf"
  = Some 1
  ∧ @process_pdfs_unique_filenames Posix.platform
      (Scenario.resolved ++ [("Annex C", "c.pdf")]) !! "a.pdf" = Some 1.
Proof.
  assert (@process_pdfs_unique_filenames Posix.platform Scenario.resolved
          !! "a.pdf" = Some 1) as Hk by (vm_compute; reflexivity).
  split; [exact Hk|].
  exact (@document_numbers_stable Posix.platform Scenario.resolved
           [("Annex C", "c.pdf")] "a.pdf" 1 Hk).
Defined.

(** ** The names of the written files *)

(** Two runs of digits followed by a space and equal as a whole are
    equal run by run. *)
Lemma digits_then_space (a b x y : string) :
  all_digits a = true → all_digits b = true →
  a +:+ String " " x = b +:+ String " " y → a = b ∧ x = y.
Proof.
  revert b. induction a as [|c a IH]; intros [|c' b] Ha Hb Heq.
  - by injection Heq.
  - rewrite append_cons in Heq. injection Heq as <- _.
    simpl in Hb. discriminate Hb.
  - rewrite append_cons in Heq. injection Heq as -> _.
    simpl in Ha. discriminate Ha.
  - rewrite !append_cons in Heq. injection Heq as -> Heq.
    simpl in Ha, Hb. apply andb_true_iff in Ha as [_ Ha], Hb as [_ Hb].
    destruct (IH b Ha Hb Heq) as [-> ->]. done.
Qed.

Lemma append_inv_head (a x y : string) : a +:+ x = a +:+ y → x = y.
Proof.
  induction a as [|c a IH]; [done|].
  rewrite !append_cons. intros [= Heq]. by apply IH.
Qed.

Lemma renamed_unfold (doc_number : nat) (filename : string) :
  renamed doc_number filename
  = (document_number_label +:+ " ")
    +:+ (Str.format_03d doc_number +:+ String " " ("- " +:+ filename)).
Proof.
  unfold renamed, numbered_label. by rewrite !append_assoc.
Qed.

(** X3.  Renaming keeps different files apart: two names built by
    [process_pdfs] with the number prefix are equal only if the
    basenames are equal and the numbers are rendered alike, and so under
    either setting of the renaming toggle two different basenames never
    get the same destination name. *)
Theorem new_names_distinct (o : options) (k k' : nat) (f f' : string) :
  process_pdfs_new_name o k f = process_pdfs_new_name o k' f' →
  f = f' ∧ (enable_renaming o = true → Str.format_03d k = Str.format_03d k').
Proof.
  unfold process_pdfs_new_name. destruct (enable_renaming o); [|by split].
  rewrite !renamed_unfold. intros Heq%append_inv_head.
  apply digits_then_space in Heq as [Hfmt Heq]; try apply format_03d_digits.
  apply (append_inv_head "- ") in Heq. by split.
Qed.

Lemma new_names_distinct_witness :
  let o := {| enable_renaming := true; add_cover_page := true |} in
  process_pdfs_new_name o 1 "a.pdf" = process_pdfs_new_name o 1 "a.pdf"
  ∧ "a.pdf" = "a.pdf"
  ∧ (enable_renaming o = true → Str.format_03d 1 = Str.format_03d 1).
Proof.
  intros o.
  assert (process_pdfs_new_name o 1 "a.pdf" = process_pdfs_new_name o 1 "a.pdf")
    as Heq by reflexivity.
  split; [exact Heq|].
  exact (new_names_distinct o 1 1 "a.pdf" "a.pdf" Heq).
Defined.

(** ** What [extract_hyperlinks] returns *)

Section ExtractionMore.
Context `{Platform}.

Lemma display_text_nonempty (hl : hyperlink_element) : display_text hl ≠ "".
Proof. unfold display_text. by destruct (String.concat "" _). Qed.

Lemma length_omap_le {A B} (f : A → option B) (l : list A) :
  length (omap f l) ≤ length l.
Proof.
  induction l as [|x l IH]; [done|].
  change (omap f (x :: l))
    with (match f x with Some y => y :: omap f l | None => omap f l end).
  destruct (f x); simpl; lia.
Qed.

(** X4.  [extract_hyperlinks] raises exactly when some hyperlink element
    of the document has a run without text, whether or not that element
    leads to a PDF.  When it returns, the list is the in-order selection
    of the PDF links; every pair in it has a non-empty link text and a
    url that ends with ".pdf" once lowercased, and comes from a hyperlink
    element whose relationship id is in the relationship table; there
    are at most as many pairs as hyperlink elements; and a document whose
    relationship table is empty gives the empty list. *)
Theorem extract_hyperlinks_wellformed (doc : document) :
  (extract_hyperlinks doc = None
   ↔ ∃ hl, hl ∈ concat (paragraphs doc) ∧ None ∈ run_texts hl)
  ∧ ∀ links : list hyperlink, extract_hyperlinks doc = Some links →
      links = pdf_links_in_order doc
      ∧ Forall (λ item : hyperlink,
                  item.1 ≠ ""
                  ∧ Str.endswith (Str.lower item.2) ".pdf" = true
                  ∧ ∃ hl id target_ref,
                      hl ∈ concat (paragraphs doc)
                      ∧ r_id hl = Some id
                      ∧ rels doc !! id = Some target_ref
                      ∧ item.2 = normpath (unquote (strip target_ref)))
               links
      ∧ length links ≤ length (concat (paragraphs doc))
      ∧ (rels doc = ∅ → links = []).
Proof.
  split; [apply extract_hyperlinks_raises|].
  intros links Hlinks.
  assert (Forall has_texts (concat (paragraphs doc))) as Hall.
  { eapply extract_paragraphs_is_Some. unfold extract_hyperlinks in Hlinks.
    by rewrite Hlinks. }
  rewrite (extract_hyperlinks_returns doc Hall) in Hlinks.
  injection Hlinks as <-. split; [done|].
  unfold pdf_links_in_order. split; [|split].
  - apply Forall_forall. intros [text url] Hin.
    apply list_elem_of_omap in Hin as (hl & Hhl & Hlink).
    unfold pdf_link, decoded_target in Hlink.
    destruct (r_id hl) as [id|] eqn:Hid; simpl in Hlink; [|done].
    destruct (decide (id = "")); [done|].
    destruct (rels doc !! id) as [target_ref|] eqn:Hrel; simpl in Hlink; [|done].
    destruct (lowercase_ends_with_pdf _) eqn:Hpdf; [|done].
    injection Hlink as <- <-. simpl.
    split; [apply display_text_nonempty|]. split; [exact Hpdf|].
    by exists hl, id, target_ref.
  - apply length_omap_le.
  - intros Hrels. apply elem_of_nil_inv. intros [text url] Hin.
    apply list_elem_of_omap in Hin as (hl & _ & Hlink).
    unfold pdf_link, decoded_target in Hlink. rewrite Hrels in Hlink.
    destruct (r_id hl) as [id|]; simpl in Hlink; [|done].
    destruct (decide (id = "")); [done|]. by rewrite lookup_empty in Hlink.
Qed.

End ExtractionMore.

(** ** Reconciling twice *)

Lemma filter_all_elem {A} (P : A → Prop) `{!∀ x, Decision (P x)} (l : list A) :
  (∀ x, x ∈ l → P x) → filter P l = l.
Proof.
  intros HP. induction l as [|x l IH]; [done|].
  rewrite filter_cons_True by (apply HP; by left).
  rewrite IH; [done|]. intros y Hy. apply HP. by right.
Qed.

Lemma filter_none_elem {A} (P : A → Prop) `{!∀ x, Decision (P x)} (l : list A) :
  (∀ x, x ∈ l → ¬ P x) → filter P l = [].
Proof.
  intros HP. induction l as [|x l IH]; [done|].
  rewrite filter_cons_False by (apply HP; by left).
  apply IH. intros y Hy. apply HP. by right.
Qed.

Section ReconciliationMore.
Context `{Platform}.
Variable files : gmap string file.
Variable central : string.

(** X5.  The existence check is idempotent: run again on its resolved
    sequence it resolves all of it and misses nothing, and run again on
    its unresolved sequence it resolves nothing and misses all of it. *)
Theorem check_pdfs_idempotent (hyperlinks : list hyperlink) :
  let existing_pdfs := (check_pdfs files central hyperlinks).1 in
  let missing_pdfs := (check_pdfs files central hyperlinks).2 in
  check_pdfs files central existing_pdfs = (existing_pdfs, [])
  ∧ check_pdfs files central missing_pdfs = ([], missing_pdfs).
Proof.
  unfold check_pdfs. rewrite !check_pdfs_fold. cbn [fst snd app].
  split; f_equal.
  - apply filter_all_elem. intros item [? _]%list_elem_of_filter. done.
  - apply filter_none_elem. intros item [? _]%list_elem_of_filter. tauto.
  - apply filter_none_elem. intros item [? _]%list_elem_of_filter. done.
  - apply filter_all_elem. intros item [? _]%list_elem_of_filter. done.
Qed.

End ReconciliationMore.

(** ** The rows of the report *)

Section ReportMore.
Context `{Platform}.

(** X6.  In a report that is written, what a row holds besides the
    text and the basename of its hyperlink, stored as the worksheet
    stores them, is decided by the url alone.  If the url is a url of
    the existing list the status is "Found", the number cell is the
    label with the number of the url's basename (cut to 32767
    characters, so the label itself unless it is longer), and the
    cell links to the numbered name in the destination folder (so
    hyperlinks with the same basename show the same number and the same
    link).  Otherwise the row has no link and an empty number cell, and
    its status is "Missing" if the url is in the missing list and
    "Unknown" if it is in neither list. *)
Theorem report_row_by_url
    (all_hyperlinks existing_pdfs missing_pdfs : list hyperlink)
    (destination_folder : string) (sheet : list sheet_row) :
  let m := process_pdfs_unique_filenames existing_pdfs in
  save_links_to_xlsx all_hyperlinks existing_pdfs missing_pdfs destination_folder
  = Some sheet →
  ∃ rows : list sheet_row,
    sheet = header_row :: rows
    ∧ Forall2
        (λ (item : hyperlink) (row : sheet_row),
           Openpyxl.check_string item.1 = Some (link_text_cell row)
           ∧ Openpyxl.check_string (basename item.2) = Some (pdf_link_cell row)
           ∧ if decide (item.2 ∈ existing_pdfs.*2) then
               status_cell row = "Found"
               ∧ ∃ k, m !! basename item.2 = Some k
                      ∧ document_number_cell row
                        = Openpyxl.take_characters 32767 (numbered_label k)
                      ∧ ((N.of_nat (String.length (numbered_label k)) ≤ 32767)%N →
                         document_number_cell row = numbered_label k)
                      ∧ pdf_link_hyperlink row
                        = Some ("file:///"
                                +:+ Str.replace_char Str.backslash "/"
                                      (abspath (join destination_folder
                                                  (renamed k (basename item.2)))))
             else
               pdf_link_hyperlink row = None
               ∧ document_number_cell row = ""
               ∧ status_cell row
                 = if decide (item.2 ∈ missing_pdfs.*2) then "Missing"
                   else "Unknown")
        all_hyperlinks rows.
Proof.
  intros m Hsheet.
  apply save_links_to_xlsx_Some in Hsheet
    as (d & r & rows & -> & Hrows & Hd & Hr).
  exists rows. split; [done|].
  eapply Forall2_impl; [exact Hrows|].
  intros [text url] row. rewrite (save_links_row_cells _ _ _ _ _ _ _ Hd).
  cbn [fst snd].
  destruct (Openpyxl.check_string text) as [cell_1|]; [|done].
  destruct (Openpyxl.check_string (basename url)) as [cell_2|]; [|done].
  cbn [mbind option_bind]. intros [= <-].
  cbn [link_text_cell pdf_link_cell status_cell document_number_cell
       pdf_link_hyperlink].
  split; [done|]. split; [done|].
  unfold save_links_new_filename. rewrite Hd, Hr.
  destruct (decide (url ∈ existing_pdfs.*2)) as [Hin|Hnin].
  - apply list_elem_of_fmap in Hin as (item & -> & Hin).
    destruct (process_pdfs_unique_filenames_total existing_pdfs item Hin)
      as [k Hk].
    fold m in Hk |- *. rewrite Hk.
    cbn [fmap option_fmap option_map from_option id].
    split; [done|]. exists k. split; [done|]. split; [done|].
    split; [apply take_characters_short|done].
  - cbn [from_option id]. split; [done|]. split; [reflexivity|]. done.
Qed.

End ReportMore.

(** ** Single items of [process_pdfs] *)

Ltac run_item :=
  unfold transform_pdf, shutil_copy, write_pdf, write_file, PdfReader,
    pages_index, announced, logged, Eff.bind, Eff.emit, Eff.ret,
    Eff.try_except;
  cbn [files trace fst snd].

Section ItemFacts.
Context `{Platform}.
Variable h : host.
Variable o : options.
Variables central destination : string.
Variable unique_filenames : gmap string nat.
Variables total_files processed_count : nat.

(** X7.  Without the cover page an item is a plain copy under its new
    name: if the source exists, the destination can be written and is
    another path than the source, the item leaves the source's file, as
    it is, at the destination, changes no other path, and logs no
    error. *)
Theorem item_without_cover_is_copy (link_text pdf_filename : string)
    (doc_number : nat) (f : file) (w : world) :
  let filename := basename pdf_filename in
  let source_path := join central filename in
  let new_name := process_pdfs_new_name o doc_number filename in
  let dest_path := join destination new_name in
  add_cover_page o = false →
  unique_filenames !! filename = Some doc_number →
  files w !! source_path = Some f →
  can_write h dest_path = true →
  source_path ≠ dest_path →
  process_pdf h o central destination unique_filenames total_files
    processed_count (link_text, pdf_filename) w
  = (Ok (processed_count + 1),
     {| files := <[dest_path := f]> (files w);
        trace := trace w ++ [EvStatus (processed_count + 1) total_files new_name;
                             EvCopy source_path dest_path;
                             EvWrite dest_path f] |}).
Proof.
  intros filename source_path new_name dest_path Hcover Hnum Hsrc Hwrite Hne.
  rewrite (process_pdf_step h o central destination _ _ _ _ _ doc_number)
    by exact Hnum.
  fold filename source_path new_name dest_path.
  clearbody source_path dest_path new_name.
  run_item. rewrite Hcover. cbn [files trace].
  rewrite (copy_target_writable h source_path dest_path Hwrite), Hsrc.
  apply String.eqb_neq in Hne. rewrite Hne, Hwrite.
  by rewrite <- !app_assoc.
Qed.

(** X8.  A source that exists but cannot be read as a PDF is copied as
    it is: with the cover page enabled, a writable destination and a
    destination other than the source, the item logs the read error,
    then copies the unchanged source to the destination. *)
Theorem item_unreadable_is_copied (link_text pdf_filename : string)
    (doc_number : nat) (raw : string) (w : world) :
  let filename := basename pdf_filename in
  let source_path := join central filename in
  let new_name := process_pdfs_new_name o doc_number filename in
  let dest_path := join destination new_name in
  add_cover_page o = true →
  unique_filenames !! filename = Some doc_number →
  files w !! source_path = Some (OtherFile raw) →
  can_write h dest_path = true →
  source_path ≠ dest_path →
  process_pdf h o central destination unique_filenames total_files
    processed_count (link_text, pdf_filename) w
  = (Ok (processed_count + 1),
     {| files := <[dest_path := OtherFile raw]> (files w);
        trace := trace w ++ [EvStatus (processed_count + 1) total_files new_name;
                             EvLogError source_path PdfReadError;
                             EvCopy source_path dest_path;
                             EvWrite dest_path (OtherFile raw)] |}).
Proof.
  intros filename source_path new_name dest_path Hcover Hnum Hsrc Hwrite Hne.
  rewrite (process_pdf_step h o central destination _ _ _ _ _ doc_number)
    by exact Hnum.
  fold filename source_path new_name dest_path.
  destruct (create_cover_page_single h doc_number link_text pdf_filename)
    as [cover Hpage].
  clearbody source_path dest_path new_name.
  run_item. rewrite Hcover, Hpage. cbn [lookup list_lookup files trace].
  rewrite Hsrc. cbn [files trace].
  rewrite (copy_target_writable h source_path dest_path Hwrite), Hsrc.
  apply String.eqb_neq in Hne. rewrite Hne, Hwrite.
  by rewrite <- !app_assoc.
Qed.

(** X9.  A source that is no longer there costs the item only: the body
    of the loop returns normally, writes nothing and leaves every file
    as it was; the failure is logged once and the copy is attempted
    once after it, so that without the cover page the copy is attempted
    twice. *)
Theorem item_missing_source_is_skipped (link_text pdf_filename : string)
    (doc_number : nat) (w : world) :
  let filename := basename pdf_filename in
  let source_path := join central filename in
  let new_name := process_pdfs_new_name o doc_number filename in
  let dest_path := join destination new_name in
  unique_filenames !! filename = Some doc_number →
  files w !! source_path = None →
  process_pdf h o central destination unique_filenames total_files
    processed_count (link_text, pdf_filename) w
  = (Ok (processed_count + 1),
     {| files := files w;
        trace :=
          trace w
          ++ [EvStatus (processed_count + 1) total_files new_name]
          ++ (if add_cover_page o then [] else [EvCopy source_path dest_path])
          ++ [EvLogError source_path FileNotFoundError;
              EvCopy source_path dest_path] |}).
Proof.
  intros filename source_path new_name dest_path Hnum Hsrc.
  rewrite (process_pdf_step h o central destination _ _ _ _ _ doc_number)
    by exact Hnum.
  fold filename source_path new_name dest_path.
  destruct (create_cover_page_single h doc_number link_text pdf_filename)
    as [cover Hpage].
  clearbody source_path dest_path new_name.
  run_item. rewrite Hpage.
  destruct (add_cover_page o); cbn [lookup list_lookup files trace];
    rewrite Hsrc; cbn [files trace]; rewrite Hsrc; cbn [app];
    by rewrite <- !app_assoc.
Qed.

End ItemFacts.

Section ItemInPlace.
Context `{Platform}.
Variable h : host.
Variable o : options.
Variables central destination : string.
Variable unique_filenames : gmap string nat.
Variables total_files processed_count : nat.

(** X10.  When the destination path of an item is its source path (the
    destination folder is the central folder and renaming is off), the
    cover page is added to the source file itself: with the cover page
    enabled and the file writable the item replaces the source by the
    cover followed by the source's pages; with the cover page disabled
    it writes nothing, and the refused copy is logged and tried once
    more. *)
Theorem item_in_place (link_text pdf_filename : string)
    (doc_number : nat) (pages : list page) (w : world) :
  let filename := basename pdf_filename in
  let source_path := join central filename in
  let new_name := process_pdfs_new_name o doc_number filename in
  let dest_path := join destination new_name in
  unique_filenames !! filename = Some doc_number →
  dest_path = source_path →
  files w !! source_path = Some (PdfFile pages) →
  can_write h source_path = true →
  ∃ cover,
    create_cover_page h doc_number link_text pdf_filename = [cover]
    ∧ process_pdf h o central destination unique_filenames total_files
        processed_count (link_text, pdf_filename) w
      = (Ok (processed_count + 1),
         if add_cover_page o then
           {| files := <[source_path := PdfFile (cover :: pages)]> (files w);
              trace := trace w
                       ++ [EvStatus (processed_count + 1) total_files new_name;
                           EvWrite source_path (PdfFile (cover :: pages))] |}
         else
           {| files := files w;
              trace := trace w
                       ++ [EvStatus (processed_count + 1) total_files new_name;
                           EvCopy source_path source_path;
                           EvLogError source_path SameFileError;
                           EvCopy source_path source_path] |}).
Proof.
  intros filename source_path new_name dest_path Hnum Hsame Hsrc Hwrite.
  destruct (create_cover_page_single h doc_number link_text pdf_filename)
    as [cover Hpage].
  exists cover. split; [exact Hpage|].
  rewrite (process_pdf_step h o central destination _ _ _ _ _ doc_number)
    by exact Hnum.
  fold filename source_path new_name dest_path. rewrite Hsame.
  clearbody source_path dest_path new_name.
  run_item. rewrite Hpage.
  rewrite (copy_target_writable h source_path source_path Hwrite).
  destruct (add_cover_page o); cbn [lookup list_lookup files trace];
    rewrite Hsrc.
  - rewrite Hwrite, add_pages_fold. cbn [app files trace].
    by rewrite <- app_assoc.
  - rewrite !String.eqb_refl. cbn [files trace].
    rewrite ?Hsrc, ?String.eqb_refl. cbn [files trace].
    by rewrite <- !app_assoc.
Qed.

End ItemInPlace.

(** ** What a batch does to the files *)

Lemma path_exists_insert (fs : gmap string file) (p q : string) (f : file) :
  path_exists (<[p := f]> fs) q = true ↔ q = p ∨ path_exists fs q = true.
Proof.
  unfold path_exists. destruct (decide (q = p)) as [->|Hne].
  - rewrite lookup_insert_eq. tauto.
  - rewrite lookup_insert_ne by done. split; [tauto|]. by intros [?|?].
Qed.

Lemma only_touches_same (path : string) (w w' : world) :
  files w' = files w → only_touches path w w'.
Proof. intros Heq. split; intros p; by rewrite Heq. Qed.

Lemma only_touches_insert (path : string) (f : file) (w w' : world) :
  files w' = <[path := f]> (files w) → only_touches path w w'.
Proof.
  intros Heq. split; intros p; rewrite Heq.
  - intros Hne. by rewrite lookup_insert_ne.
  - intros Hp. apply path_exists_insert. by right.
Qed.

Lemma only_touches_trans (path : string) (w1 w2 w3 : world) :
  only_touches path w1 w2 → only_touches path w2 w3 → only_touches path w1 w3.
Proof.
  intros [Hf1 He1] [Hf2 He2]. split; intros p Hp.
  - by rewrite Hf2, Hf1.
  - by apply He2, He1.
Qed.

Lemma only_touches_among_one (path : string) (paths : list string)
    (w w' : world) :
  path ∈ paths → only_touches path w w' → only_touches_among paths w w'.
Proof.
  intros Hin [Hframe Hkeep]. split; [|done].
  intros p Hp. apply Hframe. by intros ->.
Qed.

Lemma only_touches_among_same (paths : list string) (w w' : world) :
  files w' = files w → only_touches_among paths w w'.
Proof. intros Heq. split; intros p; by rewrite Heq. Qed.

Lemma only_touches_among_trans (paths : list string) (w1 w2 w3 : world) :
  only_touches_among paths w1 w2 → only_touches_among paths w2 w3 →
  only_touches_among paths w1 w3.
Proof.
  intros [Hf1 He1] [Hf2 He2]. split; intros p Hp.
  - by rewrite Hf2, Hf1.
  - by apply He2, He1.
Qed.

Section BatchFiles.
Context `{Platform}.
Variable h : host.
Variable o : options.
Variables central destination : string.

(** [shutil.copy] changes at most the path it copies to. *)
Lemma shutil_copy_touches (src dst : string) (w w' : world) (r : outcome unit) :
  shutil_copy h src dst w = (r, w') → only_touches (copy_target h src dst) w w'.
Proof.
  unfold shutil_copy, Eff.bind, Eff.emit, write_file. cbn [files trace].
  generalize (copy_target h src dst). intros target.
  destruct (files w !! src) as [f|]; [destruct (String.eqb src target)|];
    [|destruct (can_write h target)|]; intros [= <- <-].
  1,3,4: by apply only_touches_same.
  by apply (only_touches_insert _ f).
Qed.

(** The paths an item can change: its destination path and, when a
    directory stands there, the place in it where [shutil.copy] puts the
    source. *)
Lemma transform_pdf_touches (doc_number : nat) (link_text pdf_filename : string)
    (source_path dest_path : string) (w w' : world) (r : outcome unit) :
  transform_pdf h o doc_number link_text pdf_filename source_path dest_path w
  = (r, w') →
  only_touches_among [dest_path; copy_target h source_path dest_path] w w'.
Proof.
  unfold transform_pdf. destruct (add_cover_page o).
  2: { intros Hcopy%shutil_copy_touches.
       eapply only_touches_among_one; [|exact Hcopy].
       rewrite !elem_of_cons. auto. }
  destruct (create_cover_page_single h doc_number link_text pdf_filename)
    as [cover ->].
  unfold Eff.bind, pages_index, PdfReader, write_pdf, write_file, Eff.ret.
  cbn [lookup list_lookup].
  destruct (files w !! source_path) as [[pages|raw]|];
    [destruct (can_write h dest_path)| |]; intros [= <- <-].
  1: { apply (only_touches_among_one dest_path); [by left|].
       by eapply only_touches_insert. }
  all: by apply only_touches_among_same.
Qed.

(** A transformation that returns has written the destination, if that
    can be opened for writing. *)
Lemma transform_pdf_delivers (doc_number : nat) (link_text pdf_filename : string)
    (source_path dest_path : string) (w w' : world) :
  can_write h dest_path = true →
  transform_pdf h o doc_number link_text pdf_filename source_path dest_path w
  = (Ok tt, w') →
  path_exists (files w') dest_path = true.
Proof.
  intros Hwrite. unfold transform_pdf, shutil_copy.
  rewrite (copy_target_writable h source_path dest_path Hwrite).
  destruct (create_cover_page_single h doc_number link_text pdf_filename)
    as [cover ->].
  unfold Eff.bind, Eff.emit, pages_index, PdfReader, write_pdf, write_file,
    Eff.ret.
  cbn [lookup list_lookup files trace]. rewrite Hwrite.
  destruct (add_cover_page o).
  - destruct (files w !! source_path) as [[pages|raw]|]; [|done|done].
    intros [= <-]. cbn [files].
    apply path_exists_insert. by left.
  - destruct (files w !! source_path) as [f|]; [|done].
    destruct (String.eqb source_path dest_path); [done|].
    intros [= <-]. cbn [files].
    apply path_exists_insert. by left.
Qed.

(** A copy of an existing source to a writable destination leaves the
    destination in place, whether it returns or raises. *)
Lemma shutil_copy_delivers (src dst : string) (w w' : world) (r : outcome unit) :
  path_exists (files w) src = true →
  can_write h dst = true →
  shutil_copy h src dst w = (r, w') →
  path_exists (files w') dst = true.
Proof.
  intros Hsrc Hwrite. revert Hsrc.
  unfold shutil_copy, Eff.bind, Eff.emit, write_file, path_exists.
  rewrite (copy_target_writable h src dst Hwrite), Hwrite.
  cbn [files trace]. intros Hsrc.
  destruct (files w !! src) as [f|] eqn:Hf; [|done].
  destruct (String.eqb_spec src dst) as [<-|Hne]; intros [= <- <-]; cbn [files].
  - by rewrite Hf.
  - by rewrite lookup_insert_eq.
Qed.

Section OverBatch.
Variable unique_filenames : gmap string nat.
Variable total_files : nat.

Lemma batch_step_touches (processed_count : nat) (item : hyperlink)
    (rest : list hyperlink) (w w' : world) :
  batch h o central destination unique_filenames total_files
    processed_count (item :: rest) w w' →
  ∃ k w1,
    let source_path := join central (basename item.2) in
    let dest_path :=
      join destination (process_pdfs_new_name o k (basename item.2)) in
    unique_filenames !! basename item.2 = Some k
    ∧ only_touches_among [dest_path; copy_target h source_path dest_path] w w1
    ∧ (path_exists (files w) source_path = true →
       can_write h dest_path = true →
       path_exists (files w1) dest_path = true)
    ∧ batch h o central destination unique_filenames total_files
        (processed_count + 1) rest w1 w'.
Proof.
  inversion 1 as [|n text url rest' k w0 w1 w'' filename src new_name dst
                    Hk Htr Hrest
                  |n text url rest' k e copied w0 w1 w2 w'' filename src
                    new_name dst Hk Htr Hcopy Hrest]; subst.
  - exists k, w1. cbn [snd]. split; [exact Hk|].
    pose proof (transform_pdf_touches _ _ _ _ _ _ _ _ Htr) as Ht.
    split; [|split; [|exact Hrest]].
    + eapply only_touches_among_trans; [|exact Ht].
      by apply only_touches_among_same.
    + intros _ Hwrite. by eapply transform_pdf_delivers.
  - exists k, w2. cbn [snd]. split; [exact Hk|].
    pose proof (transform_pdf_touches _ _ _ _ _ _ _ _ Htr) as Ht.
    pose proof (shutil_copy_touches _ _ _ _ _ Hcopy) as Hc.
    assert (only_touches_among [dst; copy_target h src dst] w w1) as Hw1.
    { eapply only_touches_among_trans; [|exact Ht].
      by apply only_touches_among_same. }
    split; [|split; [|exact Hrest]].
    + eapply only_touches_among_trans; [exact Hw1|].
      eapply only_touches_among_trans;
        [|eapply only_touches_among_one;
            [|exact Hc]; rewrite !elem_of_cons; auto].
      by apply only_touches_among_same.
    + intros Hsrc Hwrite.
      eapply shutil_copy_delivers; [|exact Hwrite|exact Hcopy].
      cbn [logged files]. by apply Hw1.
Qed.

Lemma batch_files (items : list hyperlink) :
  ∀ (processed_count : nat) (w w' : world),
    batch h o central destination unique_filenames total_files
      processed_count items w w' →
    (∀ p, path_exists (files w) p = true → path_exists (files w') p = true)
    ∧ (∀ p,
         (∀ (item : hyperlink) (k : nat),
            item ∈ items → unique_filenames !! basename item.2 = Some k →
            let source_path := join central (basename item.2) in
            let dest_path :=
              join destination (process_pdfs_new_name o k (basename item.2)) in
            p ≠ dest_path ∧ p ≠ copy_target h source_path dest_path) →
         files w' !! p = files w !! p)
    ∧ ((∀ item : hyperlink, item ∈ items →
          path_exists (files w) (join central (basename item.2)) = true) →
       (∀ (item : hyperlink) (k : nat),
          item ∈ items → unique_filenames !! basename item.2 = Some k →
          can_write h (join destination (process_pdfs_new_name o k (basename item.2))) = true) →
       ∀ item : hyperlink, item ∈ items →
         ∃ k, unique_filenames !! basename item.2 = Some k
              ∧ path_exists (files w')
                  (join destination
                     (process_pdfs_new_name o k (basename item.2)))
                = true).
Proof.
  induction items as [|item rest IH]; intros n w w' Hbatch.
  - inversion Hbatch; subst. split; [done|]. split; [done|].
    intros _ _ item Hin. by apply elem_of_nil in Hin.
  - apply batch_step_touches in Hbatch
      as (k & w1 & Hk & [Hframe Hkeep] & Hdeliver & Hrest).
    destruct (IH _ _ _ Hrest) as (Hkeep' & Hframe' & Hall).
    split; [|split].
    + intros p Hp. by apply Hkeep', Hkeep.
    + intros p Hp. rewrite Hframe'.
      * apply Hframe. destruct (Hp item k) as [Hd Hc]; [by left|exact Hk|].
        cbv zeta in Hd, Hc. rewrite !not_elem_of_cons.
        split; [done|]. split; [done|]. apply not_elem_of_nil.
      * intros item' k' Hin. apply Hp. by right.
    + intros Hsrc Hwrite item' Hin.
      apply elem_of_cons in Hin as [->|Hin].
      * exists k. split; [exact Hk|]. apply Hkeep', Hdeliver.
        -- apply Hsrc. by left.
        -- apply Hwrite; [by left|exact Hk].
      * apply Hall; [| |exact Hin].
        -- intros item'' Hin''. apply Hkeep, Hsrc. by right.
        -- intros item'' k'' Hin''. apply Hwrite. by right.
Qed.

End OverBatch.

(** X11.  [process_pdfs] never removes a file, and it changes no path
    other than, for each resolved item, its destination path (the
    destination folder joined with the new name) and the path to which
    [shutil.copy] copies the source when it is given that destination,
    which is the destination path itself unless a directory stands
    there, and then the source's basename inside that directory: every
    other path holds after the run what it held before. *)
Theorem process_pdfs_touches_destinations_only
    (existing_pdfs : list hyperlink) (w : world) :
  let m := process_pdfs_unique_filenames existing_pdfs in
  let w' := (process_pdfs h o existing_pdfs central destination w).2 in
  (∀ p, path_exists (files w) p = true → path_exists (files w') p = true)
  ∧ (∀ p,
       (∀ (item : hyperlink) (k : nat),
          item ∈ existing_pdfs → m !! basename item.2 = Some k →
          let source_path := join central (basename item.2) in
          let dest_path :=
            join destination (process_pdfs_new_name o k (basename item.2)) in
          p ≠ dest_path
          ∧ p ≠ (if is_dir h dest_path
                 then join dest_path (basename source_path)
                 else dest_path)) →
       files w' !! p = files w !! p).
Proof.
  intros m w'. subst w'. unfold process_pdfs, makedirs.
  destruct (can_makedirs h destination); [|by split].
  destruct (process_pdf_loop h o central destination m (length existing_pdfs)
              existing_pdfs (process_pdfs_unique_filenames_total existing_pdfs)
              0 w) as (w' & Hrun & Hbatch).
  unfold Eff.bind, Eff.ret. cbv zeta. fold m. rewrite Hrun. cbn [snd].
  destruct (batch_files m (length existing_pdfs) existing_pdfs 0 w w' Hbatch)
    as (Hkeep & Hframe & _).
  split; [done|]. intros p Hp. apply Hframe. exact Hp.
Qed.


End BatchFiles.

(** ** The report after the transformation *)

Section ReportAfterRun.
Context `{Platform}.
Variable h : host.
Variable o : options.
Variables central destination : string.


End ReportAfterRun.

(** ** Font registration *)

Section FontFacts.
Context `{Platform}.
Variable files : gmap string file.
Variable can_register : string → bool.

(** The loop over the candidates from any list of messages so far. *)
Lemma register_first_spec (candidates : list string) :
  ∀ messages : list font_log,
    let r := register_first files can_register candidates messages in
    match arabic_font r with
    | Some p =>
        registered_ok r = true
        ∧ ∃ before after,
            candidates = before ++ p :: after
            ∧ path_exists files p = true ∧ can_register p = true
            ∧ (∀ q, q ∈ before →
                 ¬ (path_exists files q = true ∧ can_register q = true))
            ∧ font_messages r
              = messages
                ++ (LogRegisterFailed
                      <$> filter (λ q, path_exists files q = true) before)
                ++ [LogRegistered p]
    | None =>
        registered_ok r = false
        ∧ (∀ q, q ∈ candidates →
             ¬ (path_exists files q = true ∧ can_register q = true))
        ∧ font_messages r
          = messages
            ++ (LogRegisterFailed
                  <$> filter (λ q, path_exists files q = true) candidates)
            ++ [LogNoFont]
    end.
Proof.
  induction candidates as [|c rest IH]; intros messages; cbn zeta.
  - cbn [register_first arabic_font registered_ok font_messages].
    split; [done|]. split; [|done]. intros q Hq. by apply elem_of_nil in Hq.
  - cbn [register_first].
    destruct (path_exists files c) eqn:Hex; [destruct (can_register c) eqn:Hreg|].
    + cbn [arabic_font registered_ok font_messages]. split; [done|].
      exists [], rest. split; [done|]. split; [done|]. split; [done|].
      split; [|done]. intros q Hq. by apply elem_of_nil in Hq.
    + specialize (IH (messages ++ [LogRegisterFailed c])). cbn zeta in IH.
      destruct (arabic_font (register_first files can_register rest _)) as [p|].
      * destruct IH as (Hok & before & after & -> & Hp & Hr & Hbefore & Hlog).
        split; [done|]. exists (c :: before), after.
        split; [done|]. split; [done|]. split; [done|]. split.
        -- intros q [->|Hq]%elem_of_cons; [|by apply Hbefore].
           intros [_ Hc]. congruence.
        -- rewrite Hlog, filter_cons_True by done.
           by rewrite fmap_cons, <- app_assoc.
      * destruct IH as (Hok & Hnone & Hlog). split; [done|]. split.
        -- intros q [->|Hq]%elem_of_cons; [|by apply Hnone].
           intros [_ Hc]. congruence.
        -- rewrite Hlog, filter_cons_True by done.
           by rewrite fmap_cons, <- app_assoc.
    + specialize (IH messages). cbn zeta in IH.
      destruct (arabic_font (register_first files can_register rest _)) as [p|].
      * destruct IH as (Hok & before & after & -> & Hp & Hr & Hbefore & Hlog).
        split; [done|]. exists (c :: before), after.
        split; [done|]. split; [done|]. split; [done|]. split.
        -- intros q [->|Hq]%elem_of_cons; [|by apply Hbefore].
           intros [Hc _]. congruence.
        -- rewrite Hlog, filter_cons_False; [done|]. congruence.
      * destruct IH as (Hok & Hnone & Hlog). split; [done|]. split.
        -- intros q [->|Hq]%elem_of_cons; [|by apply Hnone].
           intros [Hc _]. congruence.
        -- rewrite Hlog, filter_cons_False; [done|]. congruence.
Qed.

(** X14.  [register_arabic_fonts] registers the first candidate of the
    system's list that exists and that the font library accepts, and
    returns True; the candidates before it are missing or were refused,
    and it warns once for each that exists and was refused.  If no
    candidate exists and is accepted it registers nothing, warns for
    each existing candidate and once more at the end, and returns
    False. *)
Theorem register_arabic_fonts_first_usable (system : string)
    (SystemRoot : option string) :
  let candidates := font_paths system SystemRoot in
  let r := register_arabic_fonts system SystemRoot files can_register in
  match arabic_font r with
  | Some p =>
      registered_ok r = true
      ∧ ∃ before after,
          candidates = before ++ p :: after
          ∧ path_exists files p = true ∧ can_register p = true
          ∧ (∀ q, q ∈ before →
               ¬ (path_exists files q = true ∧ can_register q = true))
          ∧ font_messages r
            = (LogRegisterFailed
                 <$> filter (λ q, path_exists files q = true) before)
              ++ [LogRegistered p]
  | None =>
      registered_ok r = false
      ∧ (∀ q, q ∈ candidates →
           ¬ (path_exists files q = true ∧ can_register q = true))
      ∧ font_messages r
        = (LogRegisterFailed
             <$> filter (λ q, path_exists files q = true) candidates)
          ++ [LogNoFont]
  end.
Proof.
  intros candidates r.
  exact (register_first_spec candidates []).
Qed.

End FontFacts.

(** On Linux with only FreeSans installed, and accepted, FreeSans is
    registered without a warning. *)
Example register_arabic_fonts_linux :
  @register_arabic_fonts Posix.platform "Linux" None
    {[ "/usr/share/fonts/truetype/freefont/FreeSans.ttf" := OtherFile "ttf" ]}
    (λ _, true)
  = {| registered_ok := true;
       arabic_font := Some "/usr/share/fonts/truetype/freefont/FreeSans.ttf";
       font_messages :=
         [LogRegistered "/usr/share/fonts/truetype/freefont/FreeSans.ttf"] |}.
Proof. vm_compute. reflexivity. Qed.

(** ** Plain copies *)

Section CopyFacts.
Context `{Platform}.
Variable h : host.

(** X15.  [copy_file] never raises and touches at most one path, the
    one [shutil.copy] copies to: the source's own basename inside the
    destination when the destination is a directory, and the destination
    itself otherwise.  Either the source exists, is another path than
    that target and the target can be written, and then the target holds
    the source's file and nothing is logged; or no file changes and the
    error is logged. *)
Theorem copy_file_never_raises (source destination : string) (w : world) :
  let target :=
    if is_dir h destination then join destination (basename source)
    else destination in
  ∃ w',
    copy_file h source destination w = (Ok tt, w')
    ∧ only_touches target w w'
    ∧ ((∃ f, files w !! source = Some f
             ∧ source ≠ target
             ∧ can_write h target = true
             ∧ files w' = <[target := f]> (files w)
             ∧ trace w' = trace w ++ [EvCopy source destination;
                                      EvWrite target f])
       ∨ (files w' = files w
          ∧ ∃ e, trace w' = trace w ++ [EvCopy source destination;
                                        EvLogError source e])).
Proof.
  intros target. unfold copy_file.
  unfold Eff.try_except, shutil_copy, Eff.bind, Eff.emit, write_file.
  change (copy_target h source destination) with target.
  clearbody target. cbn [files trace].
  destruct (files w !! source) as [f|] eqn:Hsrc.
  - destruct (String.eqb_spec source target) as [Heq|Hne].
    + eexists. split; [reflexivity|]. split; [by apply only_touches_same|].
      right. split; [done|]. exists SameFileError. cbn [trace].
      by rewrite <- app_assoc.
    + destruct (can_write h target) eqn:Hwrite.
      * eexists. split; [reflexivity|].
        split; [by apply (only_touches_insert _ f)|].
        left. exists f. cbn [files trace]. by rewrite <- app_assoc.
      * eexists. split; [reflexivity|]. split; [by apply only_touches_same|].
        right. split; [done|]. eexists. cbn [trace].
        by rewrite <- app_assoc.
  - eexists. split; [reflexivity|]. split; [by apply only_touches_same|].
    right. split; [done|]. exists FileNotFoundError. cbn [trace].
    by rewrite <- app_assoc.
Qed.

End CopyFacts.

(** ** The further properties on small runs *)

(** A world in which [a.pdf] is in the central folder but is no PDF. *)
Lemma item_unreadable_is_copied_witness :
  let o := {| enable_renaming := false; add_cover_page := true |} in
  let m := @process_pdfs_unique_filenames Posix.platform Scenario.resolved in
  let w := {| files := {[ "/central/a.pdf" := OtherFile "not a pdf" ]};
              trace := [] |} in
  add_cover_page o = true
  ∧ m !! "a.pdf" = Some 1
  ∧ files w !! "/central/a.pdf" = Some (OtherFile "not a pdf")
  ∧ can_write Scenario.plain_host "/out/a.pdf" = true
  ∧ "/central/a.pdf" ≠ "/out/a.pdf"
  ∧ @process_pdf Posix.platform Scenario.plain_host o "/central" "/out" m 2 0
      ("Annex A", "a.pdf") w
    = (Ok 1,
       {| files := <["/out/a.pdf" := OtherFile "not a pdf"]> (files w);
          trace := trace w ++ [EvStatus 1 2 "a.pdf";
                               EvLogError "/central/a.pdf" PdfReadError;
                               EvCopy "/central/a.pdf" "/out/a.pdf";
                               EvWrite "/out/a.pdf" (OtherFile "not a pdf")] |}).
Proof.
  intros o m w.
  assert (add_cover_page o = true) as H1 by reflexivity.
  assert (m !! "a.pdf" = Some 1) as H2 by (vm_compute; reflexivity).
  assert (files w !! "/central/a.pdf" = Some (OtherFile "not a pdf")) as H3
    by (vm_compute; reflexivity).
  assert (can_write Scenario.plain_host "/out/a.pdf" = true) as H4 by reflexivity.
  assert ("/central/a.pdf" ≠ "/out/a.pdf") as H5 by discriminate.
  repeat (split; [assumption|]).
  exact (@item_unreadable_is_copied Posix.platform Scenario.plain_host o
           "/central" "/out" m 2 0 "Annex A" "a.pdf" 1 "not a pdf" w
           H1 H2 H3 H4 H5).
Defined.

(** The first item of Scenario A, renamed, without a cover page. *)
Lemma item_without_cover_is_copy_witness :
  let o := {| enable_renaming := true; add_cover_page := false |} in
  let m := @process_pdfs_unique_filenames Posix.platform Scenario.resolved in
  let f := PdfFile [BodyPage "a1"; BodyPage "a2"] in
  let dest_path := "/out/المستند رقم 001 - a.pdf" in
  add_cover_page o = false
  ∧ m !! "a.pdf" = Some 1
  ∧ files Scenario.start !! "/central/a.pdf" = Some f
  ∧ can_write Scenario.plain_host dest_path = true
  ∧ "/central/a.pdf" ≠ dest_path
  ∧ @process_pdf Posix.platform Scenario.plain_host o "/central" "/out" m 2 0
      ("Annex A", "a.pdf") Scenario.start
    = (Ok 1,
       {| files := <[dest_path := f]> (files Scenario.start);
          trace := trace Scenario.start
                   ++ [EvStatus 1 2 "المستند رقم 001 - a.pdf";
                       EvCopy "/central/a.pdf" dest_path;
                       EvWrite dest_path f] |}).
Proof.
  intros o m f dest_path.
  assert (add_cover_page o = false) as H1 by reflexivity.
  assert (m !! "a.pdf" = Some 1) as H2 by (vm_compute; reflexivity).
  assert (files Scenario.start !! "/central/a.pdf" = Some f) as H3
    by (vm_compute; reflexivity).
  assert (can_write Scenario.plain_host dest_path = true) as H4 by reflexivity.
  assert ("/central/a.pdf" ≠ dest_path) as H5 by discriminate.
  repeat (split; [assumption|]).
  exact (@item_without_cover_is_copy Posix.platform Scenario.plain_host o
           "/central" "/out" m 2 0 "Annex A" "a.pdf" 1 f Scenario.start
           H1 H2 H3 H4 H5).
Defined.

(** The first item of Scenario A after [a.pdf] has gone. *)
Lemma item_missing_source_is_skipped_witness :
  let o := {| enable_renaming := false; add_cover_page := false |} in
  let m := @process_pdfs_unique_filenames Posix.platform Scenario.resolved in
  let w := {| files := ∅; trace := [] |} in
  m !! "a.pdf" = Some 1
  ∧ files w !! "/central/a.pdf" = None
  ∧ @process_pdf Posix.platform Scenario.plain_host o "/central" "/out" m 2 0
      ("Annex A", "a.pdf") w
    = (Ok 1,
       {| files := files w;
          trace := trace w
                   ++ [EvStatus 1 2 "a.pdf"]
                   ++ (if add_cover_page o then []
                       else [EvCopy "/central/a.pdf" "/out/a.pdf"])
                   ++ [EvLogError "/central/a.pdf" FileNotFoundError;
                       EvCopy "/central/a.pdf" "/out/a.pdf"] |}).
Proof.
  intros o m w.
  assert (m !! "a.pdf" = Some 1) as H1 by (vm_compute; reflexivity).
  assert (files w !! "/central/a.pdf" = None) as H2 by (vm_compute; reflexivity).
  repeat (split; [assumption|]).
  exact (@item_missing_source_is_skipped Posix.platform Scenario.plain_host o
           "/central" "/out" m 2 0 "Annex A" "a.pdf" 1 w H1 H2).
Defined.

(** The central folder chosen as destination, renaming off. *)
Lemma item_in_place_witness :
  let o := {| enable_renaming := false; add_cover_page := true |} in
  let m := @process_pdfs_unique_filenames Posix.platform Scenario.resolved in
  let pages := [BodyPage "a1"; BodyPage "a2"] in
  m !! "a.pdf" = Some 1
  ∧ "/central/a.pdf" = "/central/a.pdf"
  ∧ files Scenario.start !! "/central/a.pdf" = Some (PdfFile pages)
  ∧ can_write Scenario.plain_host "/central/a.pdf" = true
  ∧ ∃ cover,
      create_cover_page Scenario.plain_host 1 "Annex A" "a.pdf" = [cover]
      ∧ @process_pdf Posix.platform Scenario.plain_host o "/central" "/central"
          m 2 0 ("Annex A", "a.pdf") Scenario.start
        = (Ok 1,
           if add_cover_page o then
             {| files := <["/central/a.pdf" := PdfFile (cover :: pages)]>
                           (files Scenario.start);
                trace := trace Scenario.start
                         ++ [EvStatus 1 2 "a.pdf";
                             EvWrite "/central/a.pdf" (PdfFile (cover :: pages))] |}
           else
             {| files := files Scenario.start;
                trace := trace Scenario.start
                         ++ [EvStatus 1 2 "a.pdf";
                             EvCopy "/central/a.pdf" "/central/a.pdf";
                             EvLogError "/central/a.pdf" SameFileError;
                             EvCopy "/central/a.pdf" "/central/a.pdf"] |}).
Proof.
  intros o m pages.
  assert (m !! "a.pdf" = Some 1) as H1 by (vm_compute; reflexivity).
  assert ("/central/a.pdf" = "/central/a.pdf") as H2 by reflexivity.
  assert (files Scenario.start !! "/central/a.pdf" = Some (PdfFile pages)) as H3
    by (vm_compute; reflexivity).
  assert (can_write Scenario.plain_host "/central/a.pdf" = true) as H4
    by reflexivity.
  repeat (split; [assumption|]).
  exact (@item_in_place Posix.platform Scenario.plain_host o
           "/central" "/central" m 2 0 "Annex A" "a.pdf" 1 pages Scenario.start
           H1 H2 H3 H4).
Defined.



(** The report of Scenario A, row by row. *)
Lemma report_row_by_url_witness :
  let m := @process_pdfs_unique_filenames Posix.platform Scenario.resolved in
  ∃ sheet : list sheet_row,
    @save_links_to_xlsx Posix.platform Scenario.links Scenario.resolved
      Scenario.unresolved Scenario.destination
    = Some sheet
    ∧ ∃ rows : list sheet_row,
        sheet = header_row :: rows
        ∧ Forall2
            (λ (item : hyperlink) (row : sheet_row),
               Openpyxl.check_string item.1 = Some (link_text_cell row)
               ∧ Openpyxl.check_string (Posix.posix_basename item.2)
                 = Some (pdf_link_cell row)
               ∧ if decide (item.2 ∈ Scenario.resolved.*2) then
                   status_cell row = "Found"
                   ∧ ∃ k, m !! Posix.posix_basename item.2 = Some k
                          ∧ document_number_cell row
                            = Openpyxl.take_characters 32767 (numbered_label k)
                          ∧ ((N.of_nat (String.length (numbered_label k))
                              ≤ 32767)%N →
                             document_number_cell row = numbered_label k)
                          ∧ pdf_link_hyperlink row
                            = Some ("file:///"
                                    +:+ Str.replace_char Str.backslash "/"
                                          (id (Posix.posix_join
                                                 Scenario.destination
                                                 (renamed k
                                                    (Posix.posix_basename
                                                       item.2)))))
                 else
                   pdf_link_hyperlink row = None
                   ∧ document_number_cell row = ""
                   ∧ status_cell row
                     = if decide (item.2 ∈ Scenario.unresolved.*2)
                       then "Missing" else "Unknown")
            Scenario.links rows.
Proof.
  intros m. eexists.
  assert (@save_links_to_xlsx Posix.platform Scenario.links Scenario.resolved
            Scenario.unresolved Scenario.destination = Some _) as Hsheet
    by (vm_compute; reflexivity).
  split; [exact Hsheet|].
  exact (@report_row_by_url Posix.platform Scenario.links Scenario.resolved
           Scenario.unresolved Scenario.destination _ Hsheet).
Defined.
